(** * Legal Document Demystifier (demo.py): the rule-based analyzer

    A shallow embedding of [SimpleLegalDemystifier] (src/demo.py) and the
    properties its specification states about it.

    Conventions of the embedding
    - A Python [str] is a list of Unicode code points ([N]).
    - CPython's whitespace table is small and written out in full.  The
      alphanumeric, decimal-digit and case tables are written out for ASCII;
      above U+007F they are fields of [UnicodeData], over which every general
      theorem is quantified.
    - The regular expressions of the source are terms of [regex], run by a
      backtracking matcher with sre's priorities (greedy, leftmost).
    - Operations that can raise in Python ([/], [l[0]]) return a [result].
    - A Python [dict] is an association list in insertion order.
    - A Python [float] is the rational that the binary64 number is.  [int /
      int] is the quotient rounded to the nearest binary64, ties to even, and
      [round(x, 1)] goes through the nearest decimal, as CPython does.  The
      numbers divided are counts of a text, below 2^63: overflow and
      subnormal numbers do not arise and are not modelled.
    - [print] calls are not modelled; the file that is read and the clock are
      arguments of [analyze_document]. *)

From Stdlib Require Import Ascii String.
From Stdlib Require Import List Bool Arith NArith ZArith QArith Lia.
Import ListNotations.
Close Scope Q_scope.

Set Implicit Arguments.
Set Warnings "-register-all".

(* ================================================================= *)
(** ** Python values *)

Definition char := N.
Bind Scope N_scope with char.
Definition str := list char.

(** A string literal of the source, as code points. *)
Definition py (s : string) : str := map N_of_ascii (list_ascii_of_string s).
Arguments py s%_string.

Inductive exn := ZeroDivisionError | IndexError.

Inductive result (A : Type) :=
| Ok (a : A)
| Raise (e : exn).
Arguments Ok {A} a.
Arguments Raise {A} e.

Definition bind {A B} (m : result A) (f : A -> result B) : result B :=
  match m with
  | Ok a => f a
  | Raise e => Raise e
  end.

Notation "x <- m ;; k" := (bind m (fun x => k))
  (at level 61, m at next level, right associativity).

Inductive value :=
| VStr (s : str)
| VInt (n : Z)
| VFloat (q : Q)
| VList (l : list value)
| VDict (d : list (string * value)).

Definition dict := list (string * value).

Fixpoint dict_get (k : string) (d : dict) : option value :=
  match d with
  | [] => None
  | (k', v) :: d' => if String.eqb k k' then Some v else dict_get k d'
  end.

Definition dict_has (k : string) (d : dict) : bool :=
  match dict_get k d with Some _ => true | None => false end.

Definition VStrs (l : list str) : value := VList (map VStr l).

(** [len(l)] as a Python int. *)
Definition len {A} (l : list A) : Z := Z.of_nat (length l).

(** [n / d] rounded to the nearest integer, ties to even; [d] is positive. *)
Definition round_half_even (n d : Z) : Z :=
  let f := (n / d)%Z in
  let r := (2 * (n mod d))%Z in
  if (d <? r)%Z then (f + 1)%Z
  else if (r <? d)%Z then f
  else if Z.odd f then (f + 1)%Z else f.

(** [(n / d) / 2^k] as a fraction. *)
Definition scale2 (n d k : Z) : Z * Z :=
  if (0 <=? k)%Z then (n, (d * 2 ^ k)%Z) else ((n * 2 ^ (- k))%Z, d).

(** The binary64 number nearest to [q] (53 significant bits, ties to even),
    as the rational it is, in lowest terms.  [e] is the exponent of [q]:
    2^e <= |q| < 2^(e+1). *)
Definition binary64 (q : Q) : Q :=
  let a := Z.abs (Qnum q) in
  let b := Zpos (Qden q) in
  if (a =? 0)%Z then 0 # 1
  else
    let e0 := (Z.log2 a - Z.log2 b)%Z in
    let e := (let '(n, d) := scale2 a b e0 in if (n <? d)%Z then e0 - 1 else e0)%Z in
    let shift := (e - 52)%Z in
    let m := (let '(n, d) := scale2 a b shift in
              Z.sgn (Qnum q) * round_half_even n d)%Z in
    Qred (if (0 <=? shift)%Z then (m * 2 ^ shift)%Z # 1
          else m # (Z.to_pos (2 ^ (- shift)))).

(** [a / b] on ints: the exact quotient, rounded once. *)
Definition py_truediv (a b : Z) : result Q :=
  if (b =? 0)%Z then Raise ZeroDivisionError
  else Ok (binary64 (Qmake (a * Z.sgn b) (Z.to_pos (Z.abs b)))).

(** [l[0]]. *)
Definition py_index0 {A} (l : list A) : result A :=
  match l with
  | [] => Raise IndexError
  | x :: _ => Ok x
  end.

(** [round(x, 1)] on a float: the decimal with one digit after the point
    that is nearest to [x] (ties to even, on the exact value of [x]), then the
    binary64 number nearest to that decimal. *)
Definition py_round1 (x : Q) : Q :=
  binary64 (Qmake (round_half_even (Qnum x * 10) (Zpos (Qden x))) 10).

(* ================================================================= *)
(** ** Character tables *)

(** [Py_UNICODE_ISSPACE]: what [\s], [str.strip()] and [str.split()] use. *)
Definition Py_UNICODE_ISSPACE (c : char) : bool :=
  ((9 <=? c) && (c <=? 13) || (28 <=? c) && (c <=? 32)
   || (c =? 133) || (c =? 160) || (c =? 5760)
   || (8192 <=? c) && (c <=? 8202)
   || (c =? 8232) || (c =? 8233) || (c =? 8239) || (c =? 8287)
   || (c =? 12288))%N.

(** The Unicode database above U+007F. *)
Class UnicodeData := {
  (** [Py_UNICODE_ISALNUM] *)
  uni_isalnum : char -> bool;
  (** [Py_UNICODE_ISDECIMAL] *)
  uni_isdecimal : char -> bool;
  (** [str.lower()] of a text that holds a character above U+007F *)
  uni_lower : str -> str;
  (** sre's IGNORECASE comparison of a pattern literal with a character *)
  uni_ieq : char -> char -> bool;
  (** sre's IGNORECASE test of a character against a range [lo-hi] *)
  uni_irange : char -> char -> char -> bool
}.

(** The tables of a text that stays within ASCII. *)
Definition ascii_tables : UnicodeData := {|
  uni_isalnum := fun _ => false;
  uni_isdecimal := fun _ => false;
  uni_lower := fun s => s;
  uni_ieq := N.eqb;
  uni_irange := fun lo hi c => (lo <=? c)%N && (c <=? hi)%N
|}.

Definition is_ascii (c : char) : bool := (c <? 128)%N.
Definition in_range (lo hi c : char) : bool := ((lo <=? c) && (c <=? hi))%N.

Definition ascii_isupper (c : char) : bool := in_range 65 90 c.
Definition ascii_islower (c : char) : bool := in_range 97 122 c.
Definition ascii_isdigit (c : char) : bool := in_range 48 57 c.
Definition ascii_lower (c : char) : char :=
  if ascii_isupper c then (c + 32)%N else c.
Definition ascii_upper (c : char) : char :=
  if ascii_islower c then (c - 32)%N else c.

Section Tables.
Context {U : UnicodeData}.

Definition isalnum (c : char) : bool :=
  if is_ascii c then ascii_isupper c || ascii_islower c || ascii_isdigit c
  else uni_isalnum c.

(** [\w] *)
Definition is_word (c : char) : bool := isalnum c || (c =? 95)%N.

(** [\d] *)
Definition isdecimal (c : char) : bool :=
  if is_ascii c then ascii_isdigit c else uni_isdecimal c.

(** [s.lower()] *)
Definition str_lower (s : str) : str :=
  if forallb is_ascii s then map ascii_lower s else uni_lower s.

End Tables.

(* ================================================================= *)
(** ** String methods *)

Fixpoint dropWhile {A} (f : A -> bool) (l : list A) : list A :=
  match l with
  | [] => []
  | x :: l' => if f x then dropWhile f l' else l
  end.

(** [s.strip()] *)
Definition str_strip (s : str) : str :=
  rev (dropWhile Py_UNICODE_ISSPACE (rev (dropWhile Py_UNICODE_ISSPACE s))).

Fixpoint str_eqb (a b : str) : bool :=
  match a, b with
  | [], [] => true
  | x :: a', y :: b' => (x =? y)%N && str_eqb a' b'
  | _, _ => false
  end.

(** [s.startswith(p)] *)
Fixpoint str_prefix (p s : str) : bool :=
  match p, s with
  | [], _ => true
  | _ :: _, [] => false
  | a :: p', b :: s' => (a =? b)%N && str_prefix p' s'
  end.

(** [sub in s] *)
Fixpoint str_contains (sub s : str) : bool :=
  str_prefix sub s ||
  match s with
  | [] => false
  | _ :: s' => str_contains sub s'
  end.

(** [s.split(sep)] for a separator that is not empty.  [skip] counts the
    characters of a separator just found that are still to be passed; [cur]
    is the piece being read, reversed. *)
Fixpoint split_go (sep s : str) (skip : nat) (cur : str) : list str :=
  match s with
  | [] => [rev cur]
  | x :: s' =>
      match skip with
      | S n => split_go sep s' n cur
      | O => if str_prefix sep s
             then rev cur :: split_go sep s' (length sep - 1) []
             else split_go sep s' 0 (x :: cur)
      end
  end.

Definition str_split (sep s : str) : list str := split_go sep s 0 [].

(** [s.split()]: the maximal runs of characters that are not whitespace. *)
Fixpoint words_go (s : str) (cur : str) : list str :=
  match s with
  | [] => match cur with [] => [] | _ => [rev cur] end
  | x :: s' =>
      if Py_UNICODE_ISSPACE x
      then match cur with [] => words_go s' [] | _ => rev cur :: words_go s' [] end
      else words_go s' (x :: cur)
  end.

Definition str_words (s : str) : list str := words_go s [].

(** [s.replace(old, new)] *)
Fixpoint replace_go (old new s : str) (skip : nat) : str :=
  match s with
  | [] => []
  | x :: s' =>
      match skip with
      | S n => replace_go old new s' n
      | O => if str_prefix old s
             then new ++ replace_go old new s' (length old - 1)
             else x :: replace_go old new s' 0
      end
  end.

Definition str_replace (old new s : str) : str :=
  match old with
  | [] => new ++ flat_map (fun c => c :: new) s
  | _ => replace_go old new s 0
  end.

(** [sep.join(l)] *)
Fixpoint str_join (sep : str) (l : list str) : str :=
  match l with
  | [] => []
  | [a] => a
  | a :: l' => a ++ sep ++ str_join sep l'
  end.

(** [list(set(l))]: the distinct elements; the order Python lists them in is
    not specified, and nothing below depends on it. *)
Fixpoint py_set (l : list str) : list str :=
  match l with
  | [] => []
  | x :: l' => if existsb (str_eqb x) l' then py_set l' else x :: py_set l'
  end.

Definition nonempty {A} (l : list A) : bool :=
  match l with [] => false | _ => true end.

(* ================================================================= *)
(** ** Regular expressions (Python's [re], the part the source uses) *)

(** An item of a character set. *)
Inductive item :=
| ILit (c : char)            (* a literal character *)
| IRange (lo hi : char)      (* [lo-hi] *)
| IWord                      (* \w *)
| ISpace                     (* \s *)
| IDigit.                    (* \d *)

Inductive regex :=
| RSet (neg : bool) (items : list item)  (* one character: [..] or [^..] *)
| RBound                                 (* \b *)
| RBol                                   (* ^ *)
| REps
| RSeq (r1 r2 : regex)
| RStar (r : regex)                      (* r*, greedy *)
| ROpt (r : regex).                      (* r?, greedy *)

(** [r+] *)
Definition RPlus (r : regex) : regex := RSeq r (RStar r).

Definition RChar (c : char) : regex := RSet false [ILit c].
Definition RWord : regex := RSet false [IWord].
Definition RSpace : regex := RSet false [ISpace].
Definition RDigit : regex := RSet false [IDigit].
Definition RRange (lo hi : char) : regex := RSet false [IRange lo hi].

(** A literal run of characters. *)
Fixpoint RLit (s : str) : regex :=
  match s with
  | [] => REps
  | [c] => RChar c
  | c :: s' => RSeq (RChar c) (RLit s')
  end.

Fixpoint RSeqs (l : list regex) : regex :=
  match l with
  | [] => REps
  | [r] => r
  | r :: l' => RSeq r (RSeqs l')
  end.

Section Matcher.
Context {U : UnicodeData}.

(** [ic] is the IGNORECASE flag. *)
Variable ic : bool.

(** Whether a character is in an item of a set.  The literals and the ranges
    of the source's patterns are ASCII: under IGNORECASE an ASCII character
    matches them when it does so up to the case of ASCII letters, and a
    character above U+007F as the tables say. *)
Definition item_match (i : item) (x : char) : bool :=
  match i with
  | ILit c =>
      if ic
      then if is_ascii x then (ascii_lower c =? ascii_lower x)%N else uni_ieq c x
      else (c =? x)%N
  | IRange lo hi =>
      if ic
      then if is_ascii x
           then in_range lo hi x || in_range lo hi (ascii_lower x)
                || in_range lo hi (ascii_upper x)
           else uni_irange lo hi x
      else in_range lo hi x
  | IWord => is_word x
  | ISpace => Py_UNICODE_ISSPACE x
  | IDigit => isdecimal x
  end.

Definition set_match (neg : bool) (items : list item) (x : char) : bool :=
  xorb neg (existsb (fun i => item_match i x) items).

Definition word_before (p : option char) : bool :=
  match p with Some c => is_word c | None => false end.
Definition word_after (s : str) : bool :=
  match s with c :: _ => is_word c | [] => false end.

(** [\b] holds between a word character and something else. *)
Definition at_boundary (p : option char) (s : str) : bool :=
  xorb (word_before p) (word_after s).

(** The iterations of a greedy star.  [step p s k] matches the starred
    expression once at [p], [s] and goes on with [k]; [n] bounds the number
    of iterations left, and is never reached since each of them consumes a
    character.  An iteration that consumes nothing is refused, as sre does;
    when no iteration leads to a match the star matches the empty text. *)
Fixpoint star_loop {A}
         (step : option char -> str -> (option char -> str -> option A) -> option A)
         (k : option char -> str -> option A)
         (n : nat) (p : option char) (s : str) : option A :=
  match n with
  | O => k p s
  | S n' =>
      match step p s (fun p' s' =>
              if length s' <? length s then star_loop step k n' p' s'
              else None) with
      | Some v => Some v
      | None => k p s
      end
  end.

(** The backtracking matcher.  [p] is the character before the current
    position (none at the start of the text), [s] the text from the current
    position on, [k] what remains to be matched after [r].  Alternatives are
    tried in sre's order and the first that lets [k] succeed is taken. *)
Fixpoint mre {A} (r : regex) (p : option char) (s : str)
         (k : option char -> str -> option A) : option A :=
  match r with
  | RSet neg items =>
      match s with
      | x :: s' => if set_match neg items x then k (Some x) s' else None
      | [] => None
      end
  | RBound => if at_boundary p s then k p s else None
  | RBol => match p with None => k p s | Some _ => None end
  | REps => k p s
  | RSeq r1 r2 => mre r1 p s (fun p' s' => mre r2 p' s' k)
  | RStar r1 => star_loop (mre r1) k (S (length s)) p s
  | ROpt r1 =>
      match mre r1 p s k with
      | Some v => Some v
      | None => k p s
      end
  end.

(** The length of the match of [r] at the current position, if there is one;
    with [ne] an empty match does not count. *)
Definition match_here (r : regex) (p : option char) (s : str) (ne : bool)
  : option nat :=
  mre r p s (fun _ s' =>
    let n := length s - length s' in
    if ne && (n =? 0) then None else Some n).

(** [re.match(r, s)]: a match at the start of [s]. *)
Definition re_match (r : regex) (s : str) : bool :=
  match match_here r None s false with Some _ => true | None => false end.

(** What a left-to-right scan of the text for [r] meets: a character outside
    every match, or a match. *)
Inductive piece :=
| Keep (c : char)
| Hit (m : str).

(** The scan of [re.findall] and [re.sub]: the leftmost match at or after the
    current position, then on from its end.  [skip] counts the characters of
    the last match still to be passed.  An empty match is reported, and is
    followed at the same position by a match that is not empty when there is
    one (Python 3.7). *)
Fixpoint scan (r : regex) (p : option char) (s : str) (skip : nat)
  : list piece :=
  match s with
  | [] =>
      match skip with
      | O => match match_here r p [] false with
             | Some _ => [Hit []]
             | None => []
             end
      | S _ => []
      end
  | x :: s' =>
      match skip with
      | S n => scan r (Some x) s' n
      | O =>
          match match_here r p s false with
          | Some (S n) => Hit (firstn (S n) s) :: scan r (Some x) s' n
          | Some O =>
              Hit [] ::
              match match_here r p s true with
              | Some (S n) => Hit (firstn (S n) s) :: scan r (Some x) s' n
              | _ => Keep x :: scan r (Some x) s' 0
              end
          | None => Keep x :: scan r (Some x) s' 0
          end
      end
  end.

(** [re.findall(r, s)], for a pattern without capturing groups. *)
Definition re_findall (r : regex) (s : str) : list str :=
  flat_map (fun pc => match pc with Hit m => [m] | Keep _ => [] end)
           (scan r None s 0).

(** [re.sub(r, repl, s)], for a replacement without group references. *)
Definition re_sub (r : regex) (repl s : str) : str :=
  flat_map (fun pc => match pc with Hit _ => repl | Keep c => [c] end)
           (scan r None s 0).

End Matcher.

(* ================================================================= *)
(** ** The analyzer: [SimpleLegalDemystifier] *)

Definition ch (a : ascii) : char := N_of_ascii a.
Arguments ch a%_char.

(** The file system, as [open(path).read()] sees it: the text of the file, or
    nothing when opening or reading raises. *)
Definition filesystem := str -> option str.

Definition Qltb (a b : Q) : bool := negb (Qle_bool b a).

Definition sum_Z (l : list Z) : Z := fold_left Z.add l 0%Z.

Section Demystifier.
Context {U : UnicodeData}.

Definition read_text_file (fs : filesystem) (file_path : str) : str :=
  match fs file_path with
  | Some text => text
  | None => []
  end.

(** [\s+] *)
Definition re_spaces : regex := RPlus RSpace.

(** [[^\w\s.,;:!?()-]] *)
Definition re_special : regex :=
  RSet true [IWord; ISpace; ILit (ch "."); ILit (ch ","); ILit (ch ";");
             ILit (ch ":"); ILit (ch "!"); ILit (ch "?"); ILit (ch "(");
             ILit (ch ")"); ILit (ch "-")].

Definition clean_text (text : str) : str :=
  let text := re_sub false re_spaces (py " ") text in
  let text := re_sub false re_special [] text in
  str_strip text.

(** [\bword\b] *)
Definition whole_word (w : str) : regex := RSeqs [RBound; RLit w; RBound].

Definition capitalized : regex :=
  RSeq (RRange (ch "A") (ch "Z")) (RPlus (RRange (ch "a") (ch "z"))).

Definition legal_patterns : list regex :=
  [ (* \b[A-Z][a-z]+(?:\s+[A-Z][a-z]+)*\s+Agreement\b *)
    RSeqs [RBound; capitalized; RStar (RSeq (RPlus RSpace) capitalized);
           RPlus RSpace; RLit (py "Agreement"); RBound];
    (* \bterms?\s+(?:and\s+)?conditions?\b *)
    RSeqs [RBound; RLit (py "term"); ROpt (RChar (ch "s")); RPlus RSpace;
           ROpt (RSeq (RLit (py "and")) (RPlus RSpace));
           RLit (py "condition"); ROpt (RChar (ch "s")); RBound];
    (* \bliability\b *)
    whole_word (py "liability");
    (* \bindemnif\w+\b *)
    RSeqs [RBound; RLit (py "indemnif"); RPlus RWord; RBound];
    (* \bwarrant\w+\b *)
    RSeqs [RBound; RLit (py "warrant"); RPlus RWord; RBound];
    (* \bgoverning\s+law\b *)
    RSeqs [RBound; RLit (py "governing"); RPlus RSpace; RLit (py "law"); RBound];
    (* \bjurisdiction\b *)
    whole_word (py "jurisdiction");
    (* \barbitration\b *)
    whole_word (py "arbitration");
    (* \bconfidential\w*\b *)
    RSeqs [RBound; RLit (py "confidential"); RStar RWord; RBound];
    (* \btermination\b *)
    whole_word (py "termination");
    (* \bpayment\b *)
    whole_word (py "payment") ].

Definition extract_key_terms (text : str) : list str :=
  let terms :=
    fold_left (fun terms pattern => terms ++ re_findall true pattern text)
              legal_patterns [] in
  py_set terms.

(** [[s.strip() for s in text.split('.') if s.strip()]] *)
Definition sentences_of (text : str) : list str :=
  map str_strip
      (filter (fun s => nonempty (str_strip s)) (str_split (py ".") text)).

(** [^\s*\d+\.] *)
Definition re_section : regex :=
  RSeqs [RBol; RStar RSpace; RPlus RDigit; RChar (ch ".")].

Definition newline : str := [10%N].

Definition analyze_document_structure (text : str) : result dict :=
  let lines := str_split newline text in
  let sections :=
    fold_left (fun sections line =>
                 if re_match false re_section (str_strip line)
                 then sections ++ [str_strip line]
                 else sections)
              lines [] in
  let sentences := sentences_of text in
  let paragraphs :=
    map str_strip
        (filter (fun p => nonempty (str_strip p))
                (str_split (newline ++ newline) text)) in
  avg <- (if nonempty sentences
          then q <- py_truediv
                      (sum_Z (map (fun s => len (str_words s)) sentences))
                      (len sentences) ;;
               Ok (VFloat q)
          else Ok (VInt 0)) ;;
  Ok [ ("sections"%string, VStrs sections);
       ("sentence_count"%string, VInt (len sentences));
       ("paragraph_count"%string, VInt (len paragraphs));
       ("avg_sentence_length"%string, avg) ].

Definition important_indicators : list str :=
  [py "agree"; py "shall"; py "payment"; py "liability"; py "termination";
   py "confidential"; py "governing law"; py "dispute"].

(** [any(w in sentence.lower() for w in vocabulary)] *)
Definition mentions (vocabulary : list str) (sentence : str) : bool :=
  existsb (fun w => str_contains w (str_lower sentence)) vocabulary.

Definition create_simple_summary (text : str) : result str :=
  let sentences :=
    map str_strip
        (filter (fun s => nonempty (str_strip s) && (20 <? length s))
                (str_split (py ".") text)) in
  summary_sentences <-
    (if nonempty sentences
     then first <- py_index0 sentences ;; Ok [first]
     else Ok []) ;;
  let summary_sentences :=
    fold_left (fun summary sentence =>
                 if mentions important_indicators sentence
                 then if length summary <? 4
                      then summary ++ [sentence]
                      else summary
                 else summary)
              (tl sentences) summary_sentences in
  Ok (str_join (py ". ") summary_sentences ++ py ".").

Definition obligation_words : list str :=
  [py "shall"; py "must"; py "agrees to"; py "required to";
   py "responsible for"].

(** The three rewrites of a selected sentence, in the source's order. *)
Definition simplify (sentence : str) : str :=
  let simplified := str_replace (py "The Client") (py "You") sentence in
  let simplified :=
    str_replace (py "The Provider") (py "The service provider") simplified in
  str_replace (py "shall") (py "must") simplified.

Definition extract_key_obligations (text : str) : list str :=
  let sentences := sentences_of text in
  let obligations :=
    fold_left (fun obligations sentence =>
                 if mentions obligation_words sentence
                 then obligations ++ [simplify sentence]
                 else obligations)
              sentences [] in
  firstn 6 obligations.

Definition risk_indicators : list str :=
  [py "liability"; py "penalty"; py "fee"; py "terminate"; py "breach";
   py "default"; py "damages"; py "dispute"; py "arbitration"; py "court"].

(** The warning sign U+26A0, the variation selector U+FE0F and a space. *)
Definition warning_marker : str := [9888%N; 65039%N; 32%N].

Definition identify_risks_and_warnings (text : str) : list str :=
  let sentences := sentences_of text in
  let risks :=
    fold_left (fun risks sentence =>
                 if mentions risk_indicators sentence
                 then risks ++ [warning_marker ++ sentence]
                 else risks)
              sentences [] in
  firstn 5 risks.

Definition calculate_readability (text : str) : result dict :=
  let words := str_words text in
  let sentences :=
    filter (fun s => nonempty (str_strip s)) (str_split (py ".") text) in
  if negb (nonempty sentences)
  then Ok [ ("score"%string, VStr (py "N/A"));
            ("level"%string, VStr (py "Unable to calculate")) ]
  else
    avg_words_per_sentence <- py_truediv (len words) (len sentences) ;;
    let '(level, score) :=
      if Qltb avg_words_per_sentence (15 # 1)
      then (py "Easy to read", py "Good")
      else if Qltb avg_words_per_sentence (25 # 1)
      then (py "Moderate difficulty", py "Fair")
      else (py "Difficult to read", py "Complex") in
    Ok [ ("avg_words_per_sentence"%string,
          VFloat (py_round1 avg_words_per_sentence));
         ("total_words"%string, VInt (len words));
         ("total_sentences"%string, VInt (len sentences));
         ("score"%string, VStr score);
         ("level"%string, VStr level) ].

(** [now] is [datetime.now().strftime("%Y-%m-%d %H:%M:%S")]. *)
Definition analyze_document (fs : filesystem) (now : str) (file_path : str)
  : result dict :=
  let text := read_text_file fs file_path in
  if negb (nonempty text)
  then Ok [ ("error"%string, VStr (py "Could not read the document")) ]
  else
    let cleaned_text := clean_text text in
    let key_terms := extract_key_terms cleaned_text in
    structure <- analyze_document_structure cleaned_text ;;
    summary <- create_simple_summary cleaned_text ;;
    let obligations := extract_key_obligations cleaned_text in
    let risks := identify_risks_and_warnings cleaned_text in
    readability <- calculate_readability cleaned_text ;;
    Ok [ ("document_info"%string,
          VDict [ ("file_path"%string, VStr file_path);
                  ("word_count"%string, VInt (len (str_words cleaned_text)));
                  ("analysis_date"%string, VStr now) ]);
         ("key_terms"%string, VStrs key_terms);
         ("structure"%string, VDict structure);
         ("plain_language_summary"%string, VStr summary);
         ("key_obligations"%string, VStrs obligations);
         ("risks_and_warnings"%string, VStrs risks);
         ("readability"%string, VDict readability);
         ("original_preview"%string,
          VStr (if 300 <? length cleaned_text
                then firstn 300 cleaned_text ++ py "..."
                else cleaned_text)) ].

End Demystifier.

Definition create_sample_legal_text : str := py "
    SERVICE AGREEMENT
    
    This Service Agreement is entered into between Company XYZ (Provider) and the Client.
    
    1. SERVICES
    Provider agrees to perform consulting services as described in Exhibit A. All services shall be 
    performed in a professional manner according to industry standards.
    
    2. PAYMENT TERMS
    Client agrees to pay Provider the fees outlined in Exhibit A. Payment is due within thirty (30) 
    days of invoice date. Late payments may incur a fee of 1.5% per month.
    
    3. CONFIDENTIALITY
    Both parties agree to maintain confidentiality of all shared information and not disclose 
    it to third parties without written consent.
    
    4. LIABILITY LIMITATION
    Provider's liability shall not exceed the total amount paid by Client under this Agreement. 
    Provider shall not be liable for indirect, incidental, or consequential damages.
    
    5. GOVERNING LAW
    This Agreement shall be governed by state law. Disputes shall be resolved through binding arbitration.
    
    6. TERMINATION
    Either party may terminate this Agreement with thirty (30) days written notice.
    ".

(* ================================================================= *)
(** ** Vocabulary of the statements *)

(** [a] is [b] with some elements left out: same elements, same order. *)
Inductive subseq {A} : list A -> list A -> Prop :=
| subseq_nil : subseq [] []
| subseq_keep x a b : subseq a b -> subseq (x :: a) (x :: b)
| subseq_drop x a b : subseq a b -> subseq a (x :: b).

Section SummarySpec.
Context {U : UnicodeData}.

(** The summary as the specification words it (4.4). *)

(** The dot-separated sentences longer than 20 characters: the pieces of
    [text.split('.')] that are not blank and hold more than 20 characters,
    each trimmed. *)
Definition long_sentences (text : str) : list str :=
  map str_strip
      (filter (fun s => nonempty (str_strip s) && (20 <? length s))
              (str_split (py ".") text)).

(** The first of them, then those of the rest that hold an indicator, in
    order, until 4 are collected. *)
Definition summary_selection (text : str) : list str :=
  match long_sentences text with
  | [] => []
  | first :: rest =>
      first :: firstn 3 (filter (mentions important_indicators) rest)
  end.

(** Joined with ". ", and a period at the end. *)
Definition summary_by_spec (text : str) : str :=
  str_join (py ". ") (summary_selection text) ++ py ".".

(** The same summary when "longer than 20 characters" is read on the
    sentence of the specification's data model, which is trimmed. *)
Definition trimmed_long_sentences (text : str) : list str :=
  filter (fun s => 20 <? length s) (sentences_of text).

Definition summary_by_trimmed_length (text : str) : str :=
  str_join (py ". ")
           (match trimmed_long_sentences text with
            | [] => []
            | first :: rest =>
                first :: firstn 3 (filter (mentions important_indicators) rest)
            end)
  ++ py ".".

End SummarySpec.

(** The three tiers of the readability scorer, as (level, score): an average
    below 15 words, below 25 words, and the rest. *)
Definition tier_of (avg : Q) : str * str :=
  if Qltb avg (15 # 1) then (py "Easy to read", py "Good")
  else if Qltb avg (25 # 1) then (py "Moderate difficulty", py "Fair")
  else (py "Difficult to read", py "Complex").

(** Whitespace at the start, at the end, and two whitespace characters in a
    row. *)
Definition space_at_start (s : str) : bool :=
  match s with c :: _ => Py_UNICODE_ISSPACE c | [] => false end.

Definition space_at_end (s : str) : bool := space_at_start (rev s).

Fixpoint has_space_run (s : str) : bool :=
  match s with
  | a :: (b :: _) as s' =>
      Py_UNICODE_ISSPACE a && Py_UNICODE_ISSPACE b || has_space_run s'
  | _ => false
  end.

(** The punctuation that [clean_text] keeps. *)
Definition punctuation : str := py ".,;:!?()-".

(** The alphabet the specification gives for cleaned text:
    [[A-Za-z0-9 .,;:!?()-]]. *)
Definition in_spec_alphabet (c : char) : bool :=
  ascii_isupper c || ascii_islower c || ascii_isdigit c || (c =? 32)%N
  || existsb (fun d => (d =? c)%N) punctuation.

(** The characters the second substitution of [clean_text] lets through. *)
Definition kept_by_clean_text {U : UnicodeData} (c : char) : bool :=
  is_word c || Py_UNICODE_ISSPACE c || existsb (fun d => (d =? c)%N) punctuation.

(** The keys of a full report that the specification names. *)
Definition report_fields : list string :=
  [ "key_terms"; "structure"; "plain_language_summary"; "key_obligations";
    "risks_and_warnings"; "readability" ]%string.

(** The lines that look like the heading of a numbered section: what
    [analyze_document_structure] collects as sections. *)
Definition numbered_lines {U : UnicodeData} (text : str) : list str :=
  map str_strip
      (filter (fun line => re_match false re_section (str_strip line))
              (str_split newline text)).

(* ================================================================= *)
(** ** Vocabulary of the further properties *)

(** The number of whitespace characters a text starts with. *)
Fixpoint leading_spaces (s : str) : nat :=
  match s with
  | x :: s' => if Py_UNICODE_ISSPACE x then S (leading_spaces s') else 0
  | [] => 0
  end.

(** Every run of whitespace replaced by one space, written as a direct scan
    of the text; [in_run] tells that the character before was whitespace. *)
Fixpoint collapse_go (in_run : bool) (s : str) : str :=
  match s with
  | [] => []
  | x :: s' =>
      if Py_UNICODE_ISSPACE x
      then if in_run then collapse_go true s' else 32%N :: collapse_go true s'
      else x :: collapse_go false s'
  end.

Definition collapse_spaces (s : str) : str := collapse_go false s.

Definition not_space (c : char) : bool := negb (Py_UNICODE_ISSPACE c).

(** A text in the form [clean_text] aims at: kept characters only, no
    whitespace but single spaces, none of them at either end. *)
Definition normal_text {U : UnicodeData} (s : str) : Prop :=
  forallb kept_by_clean_text s = true
  /\ forallb (fun c => not_space c || (c =? 32)%N) s = true
  /\ has_space_run s = false
  /\ space_at_start s = false
  /\ space_at_end s = false.

(** The least number of characters a match of [r] holds. *)
Fixpoint min_len (r : regex) : nat :=
  match r with
  | RSet _ _ => 1
  | RBound | RBol | REps => 0
  | RSeq r1 r2 => min_len r1 + min_len r2
  | RStar _ | ROpt _ => 0
  end.

(* ================================================================= *)
(** * Properties *)

(** ** The string methods and the matcher on small inputs

    What Python answers on the same inputs. *)

Example split_on_period :
  str_split (py ".") (py "a.b.") = [py "a"; py "b"; []].
Proof. reflexivity. Qed.

Example split_on_blank_line :
  str_split (newline ++ newline) ([97; 10; 10; 10; 98]%N) = [[97%N]; [10; 98]%N].
Proof. reflexivity. Qed.

Example split_words :
  str_words ([32; 32; 97; 32; 9; 32; 98; 10]%N) = [py "a"; py "b"].
Proof. reflexivity. Qed.

Example strip_both_ends :
  str_strip ([32; 10; 32; 97; 32; 98; 32; 9]%N) = py "a b".
Proof. reflexivity. Qed.

Example replace_leftmost_first :
  str_replace (py "aa") (py "b") (py "aaa") = py "ba".
Proof. reflexivity. Qed.

Example replace_empty_pattern :
  str_replace [] (py "-") (py "ab") = py "-a-b-".
Proof. reflexivity. Qed.

Example findall_with_empty_matches (U : UnicodeData) :
  re_findall false (RStar (RChar (ch "x"))) (py "abxd")
  = [[]; []; py "x"; []; []].
Proof. reflexivity. Qed.

Example sub_with_empty_matches (U : UnicodeData) :
  re_sub false (RStar (RChar (ch "x"))) (py "-") (py "abxd") = py "-a-b--d-".
Proof. reflexivity. Qed.

Example findall_agreement_ignores_case (U : UnicodeData) :
  re_findall true (nth 0 legal_patterns REps)
             (py "the Master Service Agreement, an agreement")
  = [py "the Master Service Agreement"; py "an agreement"].
Proof. vm_compute. reflexivity. Qed.

Example findall_terms_and_conditions (U : UnicodeData) :
  re_findall true (nth 1 legal_patterns REps)
             (py "Terms and  Conditions; term condition")
  = [py "Terms and  Conditions"; py "term condition"].
Proof. vm_compute. reflexivity. Qed.

Example match_section_heading (U : UnicodeData) :
  re_match false re_section (py "12. Fees") = true
  /\ re_match false re_section (py "x 1.") = false.
Proof. split; reflexivity. Qed.

Example clean_text_keeps_underscore (U : UnicodeData) :
  clean_text ([32; 97; 95; 98; 32; 9; 32; 99; 64; 100; 10]%N) = py "a_b cd".
Proof. vm_compute. reflexivity. Qed.

(** ** Loops that append *)

Section Loops.
Variables A B : Type.

(** [for x in l: if c x: out.append(f x)] collects [f x] over the [x] that
    pass [c], in the order of [l]. *)
Lemma append_loop (c : A -> bool) (f : A -> B) (l : list A) (out : list B) :
  fold_left (fun out x => if c x then out ++ [f x] else out) l out
  = out ++ map f (filter c l).
Proof.
  revert out; induction l as [|x l IH]; intros out; simpl.
  - now rewrite app_nil_r.
  - rewrite IH. destruct (c x); simpl; [now rewrite <- app_assoc | reflexivity].
Qed.

(** The same loop with a bound [n] on the length of [out]. *)
Lemma bounded_append_loop (c : A -> bool) (n : nat) (l : list A) (out : list A) :
  length out <= n ->
  fold_left (fun out x => if c x
                          then if length out <? n then out ++ [x] else out
                          else out) l out
  = out ++ firstn (n - length out) (filter c l).
Proof.
  revert out; induction l as [|x l IH]; intros out Hn; simpl.
  - now rewrite firstn_nil, app_nil_r.
  - destruct (c x); simpl; [|now apply IH].
    destruct (length out <? n) eqn:E.
    + apply Nat.ltb_lt in E. rewrite IH by (rewrite length_app; simpl; lia).
      rewrite length_app; simpl.
      replace (n - length out) with (S (n - (length out + 1))) by lia.
      simpl. now rewrite <- app_assoc.
    + apply Nat.ltb_ge in E. rewrite IH by lia.
      replace (n - length out) with 0 by lia. reflexivity.
Qed.

End Loops.

Lemma subseq_filter A (c : A -> bool) (l : list A) : subseq (filter c l) l.
Proof.
  induction l as [|x l IH]; simpl; [constructor|].
  destruct (c x); constructor; auto.
Qed.

Lemma subseq_firstn A (n : nat) (l : list A) : subseq (firstn n l) l.
Proof.
  revert n; induction l as [|x l IH]; intros [|n]; simpl; try constructor; auto.
  clear. induction l; constructor; auto.
Qed.

Lemma subseq_trans A (l1 l2 l3 : list A) :
  subseq l1 l2 -> subseq l2 l3 -> subseq l1 l3.
Proof.
  intros H12 H23; revert l1 H12.
  induction H23 as [|x l2 l3 H IH|x l2 l3 H IH]; intros l1 H12.
  - exact H12.
  - inversion H12; subst; constructor; auto.
  - constructor; auto.
Qed.

Lemma In_firstn A (x : A) (n : nat) (l : list A) :
  In x (firstn n l) -> In x l.
Proof.
  revert n; induction l as [|y l IH]; intros [|n]; simpl; try tauto.
  intros [H|H]; eauto.
Qed.

Lemma Forall_firstn_filter A (c : A -> bool) (n : nat) (l : list A) :
  Forall (fun x => c x = true) (firstn n (filter c l)).
Proof.
  apply Forall_forall; intros x Hx.
  apply In_firstn, filter_In in Hx. tauto.
Qed.

(* ================================================================= *)
(** ** Obligations and risks *)

Section Extractors.
Context {U : UnicodeData}.

Lemma extract_key_obligations_eq (text : str) :
  extract_key_obligations text
  = map simplify (firstn 6 (filter (mentions obligation_words) (sentences_of text))).
Proof.
  unfold extract_key_obligations.
  now rewrite append_loop, app_nil_l, firstn_map.
Qed.

Lemma identify_risks_and_warnings_eq (text : str) :
  identify_risks_and_warnings text
  = map (app warning_marker)
        (firstn 5 (filter (mentions risk_indicators) (sentences_of text))).
Proof.
  unfold identify_risks_and_warnings.
  rewrite (append_loop (mentions risk_indicators) (app warning_marker)).
  now rewrite app_nil_l, firstn_map.
Qed.

(** C7. The obligation list has at most 6 entries and the risk list at most
    5.  Either list is made, entry by entry, from a subsequence of the
    sentences of the text: the first 6 (5) sentences that mention the
    vocabulary, in document order; an obligation is the rewritten sentence, a
    risk the sentence behind the warning marker. *)
Theorem obligations_and_risks_bounded_in_order (text : str) :
  length (extract_key_obligations text) <= 6
  /\ length (identify_risks_and_warnings text) <= 5
  /\ (exists kept,
        subseq kept (sentences_of text)
        /\ kept = firstn 6 (filter (mentions obligation_words) (sentences_of text))
        /\ Forall (fun s => mentions obligation_words s = true) kept
        /\ extract_key_obligations text = map simplify kept)
  /\ (exists kept,
        subseq kept (sentences_of text)
        /\ kept = firstn 5 (filter (mentions risk_indicators) (sentences_of text))
        /\ Forall (fun s => mentions risk_indicators s = true) kept
        /\ identify_risks_and_warnings text
           = map (fun s => warning_marker ++ s) kept).
Proof.
  rewrite extract_key_obligations_eq, identify_risks_and_warnings_eq.
  rewrite !length_map.
  split; [apply firstn_le_length|].
  split; [apply firstn_le_length|].
  split; eexists; (split; [|split; [reflexivity|split; [|reflexivity]]]).
  - eapply subseq_trans; [apply subseq_firstn | apply subseq_filter].
  - apply Forall_firstn_filter.
  - eapply subseq_trans; [apply subseq_firstn | apply subseq_filter].
  - apply Forall_firstn_filter.
Qed.

End Extractors.

(* ================================================================= *)
(** ** The summarizer *)

Section Summary.
Context {U : UnicodeData}.

Lemma summary_selection_length (text : str) :
  length (summary_selection text) <= 4.
Proof.
  unfold summary_selection.
  destruct (long_sentences text) as [|first rest]; cbn [length]; [lia|].
  pose proof (firstn_le_length 3 (filter (mentions important_indicators) rest)).
  lia.
Qed.

Lemma long_sentences_origin (text : str) :
  Forall (fun s => exists piece,
            In piece (str_split (py ".") text)
            /\ 20 < length piece /\ s = str_strip piece)
         (long_sentences text).
Proof.
  apply Forall_forall; intros s Hs. unfold long_sentences in Hs.
  apply in_map_iff in Hs as (piece & <- & Hp).
  apply filter_In in Hp as (Hin & Hc).
  apply andb_true_iff in Hc as (_ & Hlen). apply Nat.ltb_lt in Hlen.
  now exists piece.
Qed.

Lemma summary_selection_origin (text : str) :
  Forall (fun s => In s (long_sentences text)) (summary_selection text).
Proof.
  unfold summary_selection. destruct (long_sentences text) as [|first rest].
  - constructor.
  - constructor; [now left|].
    apply Forall_forall; intros s Hs. right.
    apply In_firstn, filter_In in Hs. tauto.
Qed.

(** The loop of the summarizer, in closed form. *)
Lemma create_simple_summary_eq (text : str) :
  create_simple_summary text = Ok (summary_by_spec text).
Proof.
  unfold create_simple_summary, summary_by_spec, summary_selection.
  fold (long_sentences text).
  destruct (long_sentences text) as [|first rest]; [reflexivity|].
  cbn [nonempty py_index0 bind tl].
  now rewrite bounded_append_loop by (simpl; lia).
Qed.

(** C5, as the code has it.  The summarizer returns, without raising, the
    summary of the specification with the length read on the piece as split:
    of the pieces of [text.split('.')] that are not blank and longer than 20
    characters (the length of the piece before it is trimmed), the first,
    then in order those of the rest that hold an indicator word until 4 are
    collected, each trimmed, joined by ". " with a period at the end; that is
    "." alone when no piece qualifies.  At most 4 sentences are selected and
    each is such a piece, trimmed. *)
Theorem create_simple_summary_spec (text : str) :
  create_simple_summary text = Ok (summary_by_spec text)
  /\ length (summary_selection text) <= 4
  /\ Forall (fun s => exists piece,
               In piece (str_split (py ".") text)
               /\ 20 < length piece /\ s = str_strip piece)
            (summary_selection text)
  /\ match long_sentences text with
     | [] => create_simple_summary text = Ok (py ".")
     | first :: _ => exists rest, summary_selection text = first :: rest
     end.
Proof.
  pose proof (create_simple_summary_eq text) as E.
  split; [exact E|].
  split; [apply summary_selection_length|].
  split.
  - pose proof (summary_selection_origin text) as H1.
    pose proof (long_sentences_origin text) as H2.
    rewrite Forall_forall in *. intros s Hs. apply H2, H1, Hs.
  - rewrite E. unfold summary_by_spec, summary_selection.
    destruct (long_sentences text); [reflexivity|eauto].
Qed.

End Summary.

(** C5, as stated, fails when the length is that of the sentence: in
    "Short one. Exactly twenty chars." the second piece has 21 characters
    with its leading space, so the code selects "Exactly twenty chars", a
    sentence of 20 characters, where the claim selects nothing and gives
    ".".  (The text is ASCII: the tables above U+007F play no part.) *)
Lemma summary_selects_sentence_of_twenty_characters :
  create_simple_summary (U := ascii_tables)
                        (py "Short one. Exactly twenty chars.")
  = Ok (py "Exactly twenty chars.")
  /\ length (py "Exactly twenty chars") = 20
  /\ summary_by_trimmed_length (U := ascii_tables)
                               (py "Short one. Exactly twenty chars.")
     = py "."
  /\ ~ (forall (U : UnicodeData) (text : str),
          create_simple_summary text = Ok (summary_by_trimmed_length text)).
Proof.
  split; [reflexivity|]. split; [reflexivity|]. split; [reflexivity|].
  intros H.
  specialize (H ascii_tables (py "Short one. Exactly twenty chars.")).
  vm_compute in H. discriminate H.
Qed.

(* ================================================================= *)
(** ** The readability scorer *)

Lemma len_pos_of_cons A (x : A) (l : list A) : (0 < len (x :: l))%Z.
Proof. unfold len; simpl length; lia. Qed.

Lemma py_truediv_pos (a b : Z) :
  (0 < b)%Z -> py_truediv a b = Ok (binary64 (Qmake a (Z.to_pos b))).
Proof.
  intros H. unfold py_truediv.
  destruct (Z.eqb_spec b 0); [lia|].
  now rewrite Z.sgn_pos, Z.mul_1_r, Z.abs_eq by lia.
Qed.

(** The division and the rounding on the tie 43/20: the binary64 quotient is
    below 2.15, and [round] gives 2.1, not 2.2. *)
Example round_of_tie :
  (x <- py_truediv 43 20 ;; Ok (py_round1 x)) = Ok (binary64 (21 # 10))
  /\ py_truediv 1 4 = Ok (1 # 4)%Q
  /\ py_round1 (1 # 4) = binary64 (2 # 10)
  /\ py_round1 (3 # 4) = binary64 (8 # 10).
Proof. vm_compute. repeat split. Qed.

(** C8. With no sentence (no piece of [text.split('.')] that is not blank)
    the scorer returns the sentinel, score "N/A" and level "Unable to
    calculate"; with at least one it divides the number of words by the
    number of sentences, without raising, and returns the tier of that
    average (the binary64 quotient): below 15 easy, below 25 moderate,
    difficult otherwise. *)
Theorem calculate_readability_spec (text : str) :
  let words := str_words text in
  let sentences :=
    filter (fun s => nonempty (str_strip s)) (str_split (py ".") text) in
  match sentences with
  | [] =>
      calculate_readability text
      = Ok [ ("score"%string, VStr (py "N/A"));
             ("level"%string, VStr (py "Unable to calculate")) ]
  | _ :: _ =>
      exists avg,
        py_truediv (len words) (len sentences) = Ok avg
        /\ avg = binary64 (Qmake (len words) (Z.to_pos (len sentences)))
        /\ calculate_readability text
           = Ok [ ("avg_words_per_sentence"%string, VFloat (py_round1 avg));
                  ("total_words"%string, VInt (len words));
                  ("total_sentences"%string, VInt (len sentences));
                  ("score"%string, VStr (snd (tier_of avg)));
                  ("level"%string, VStr (fst (tier_of avg))) ]
  end.
Proof.
  intros words sentences. unfold calculate_readability.
  fold words. fold sentences.
  destruct sentences as [|s0 rest] eqn:E; [reflexivity|].
  cbn [nonempty negb].
  rewrite py_truediv_pos by apply len_pos_of_cons.
  eexists; split; [reflexivity|]. split; [reflexivity|].
  cbn [bind]. unfold tier_of.
  destruct (Qltb _ (15 # 1)); [reflexivity|].
  destruct (Qltb _ (25 # 1)); reflexivity.
Qed.

(* ================================================================= *)
(** ** The scenario of one sentence *)

(** C6. For the text "The Client shall pay within 30 days." the obligation
    extractor returns exactly one entry, the sentence with "The Client"
    replaced by "You" and "shall" by "must". *)
Theorem obligations_of_single_sentence (U : UnicodeData) :
  extract_key_obligations (py "The Client shall pay within 30 days.")
  = [py "You must pay within 30 days"].
Proof. vm_compute. reflexivity. Qed.

(* ================================================================= *)
(** ** [str.replace] *)

Lemma str_prefix_app (p u v : str) :
  length p <= length u -> str_prefix p (u ++ v) = str_prefix p u.
Proof.
  revert u; induction p as [|a p IH]; intros [|b u] Hl; simpl in *;
    try reflexivity; try lia.
  now rewrite IH by lia.
Qed.

Lemma str_prefix_self (p v : str) : str_prefix p (p ++ v) = true.
Proof.
  induction p as [|a p IH]; simpl; [reflexivity|].
  now rewrite N.eqb_refl, IH.
Qed.

Lemma replace_go_skip (old new s : str) (n : nat) :
  replace_go old new s n = replace_go old new (skipn n s) 0.
Proof.
  revert n; induction s as [|x s IH]; intros [|n]; try reflexivity.
  simpl. apply IH.
Qed.

(** One step of the scan of [replace]. *)
Lemma replace_go_step (old new : str) (x : char) (s : str) :
  old <> [] ->
  replace_go old new (x :: s) 0
  = if str_prefix old (x :: s)
    then new ++ replace_go old new (skipn (length old) (x :: s)) 0
    else x :: replace_go old new s 0.
Proof.
  intros Hold.
  cbn [replace_go]. destruct (str_prefix old (x :: s)) eqn:E; [|reflexivity].
  rewrite replace_go_skip. f_equal. f_equal.
  destruct old as [|a old]; [congruence|].
  replace (length (a :: old) - 1) with (length old) by (cbn [length]; lia).
  reflexivity.
Qed.

(** A text without occurrence of [old] is left as it is. *)
Lemma replace_go_absent (old new s : str) :
  old <> [] -> str_contains old s = false -> replace_go old new s 0 = s.
Proof.
  intros Hold. induction s as [|x s IH]; intros H; [reflexivity|].
  rewrite replace_go_step by assumption.
  cbn [str_contains] in H. apply orb_false_iff in H as (H1 & H2).
  rewrite H1. now rewrite IH.
Qed.

(** The first occurrence of [old] is replaced and the scan goes on behind it. *)
Lemma replace_go_first (old new a b : str) :
  old <> [] ->
  str_contains old (a ++ removelast old) = false ->
  replace_go old new (a ++ old ++ b) 0
  = a ++ new ++ replace_go old new b 0.
Proof.
  intros Hold. induction a as [|x a IH]; intros H.
  - destruct old as [|c old]; [congruence|].
    cbn [app]. change (c :: old ++ b) with ((c :: old) ++ b).
    set (o := c :: old). change (o ++ b) with (c :: old ++ b).
    rewrite replace_go_step by discriminate. change (c :: old ++ b) with (o ++ b).
    rewrite str_prefix_self. f_equal.
    now rewrite skipn_app, skipn_all, Nat.sub_diag.
  - cbn [app str_contains] in H. apply orb_false_iff in H as (H1 & H2).
    cbn [app]. rewrite replace_go_step by assumption.
    assert (E : str_prefix old (x :: a ++ old ++ b) = false).
    { rewrite <- H1.
      assert (E0 : old ++ b = removelast old ++ [last old 0%N] ++ b)
        by now rewrite app_assoc, <- app_removelast_last.
      rewrite E0, app_assoc.
      change (x :: (a ++ removelast old) ++ [last old 0%N] ++ b)
        with ((x :: a ++ removelast old) ++ [last old 0%N] ++ b).
      apply str_prefix_app.
      cbn [length]. rewrite length_app.
      assert (length old = S (length (removelast old))).
      { rewrite (app_removelast_last 0%N Hold) at 1.
        rewrite length_app; simpl. unfold str, char in *; lia. }
      unfold str, char in *; lia. }
    rewrite E. f_equal. now apply IH.
Qed.

(** *** "shall" becomes "must" *)

Lemma py_shall : py "shall" = [115; 104; 97; 108; 108]%N.
Proof. reflexivity. Qed.

Lemma py_must : py "must" = [109; 117; 115; 116]%N.
Proof. reflexivity. Qed.

(** What the rewritten text starts with, when that holds no "m", the text
    itself started with. *)
Lemma shall_prefix_back (q : str) :
  ~ In 109%N q ->
  forall s, str_prefix q (replace_go (py "shall") (py "must") s 0) = true ->
            str_prefix q s = true.
Proof.
  induction q as [|c q IH]; intros Hq s H; [reflexivity|].
  destruct s as [|x s]; [discriminate H|].
  rewrite replace_go_step in H by discriminate.
  destruct (str_prefix (py "shall") (x :: s)) eqn:E.
  - rewrite py_must in H. cbn [app str_prefix] in H.
    apply andb_true_iff in H as (H & _). apply N.eqb_eq in H.
    exfalso; apply Hq; left; now symmetry.
  - cbn [str_prefix] in H |- *.
    apply andb_true_iff in H as (H1 & H2). rewrite H1. cbn [andb].
    apply IH; [|exact H2]. intros Hin; apply Hq; now right.
Qed.

Lemma no_shall_left (s : str) :
  str_contains (py "shall") (replace_go (py "shall") (py "must") s 0) = false.
Proof.
  remember (length s) as n eqn:Hn.
  assert (Hle : length s <= n) by lia. clear Hn.
  revert s Hle; induction n as [|n IH]; intros s Hle.
  - destruct s; [reflexivity|simpl in Hle; lia].
  - destruct s as [|x s]; [reflexivity|].
    rewrite replace_go_step by discriminate.
    destruct (str_prefix (py "shall") (x :: s)) eqn:E.
    + assert (Hs : str_contains (py "shall")
                     (replace_go (py "shall") (py "must")
                        (skipn (length (py "shall")) (x :: s)) 0) = false).
      { apply IH. rewrite length_skipn. simpl in Hle |- *. lia. }
      revert Hs. generalize (replace_go (py "shall") (py "must")
                               (skipn (length (py "shall")) (x :: s)) 0).
      intros r Hs. rewrite py_must, py_shall in *.
      cbn [app str_contains str_prefix]. rewrite Hs.
      destruct r as [|r0 r]; reflexivity.
    + cbn [str_contains]. rewrite IH by (simpl in Hle; lia).
      rewrite orb_false_r.
      destruct (str_prefix (py "shall")
                  (x :: replace_go (py "shall") (py "must") s 0)) eqn:E'; [|reflexivity].
      rewrite <- E. rewrite py_shall in E' |- *.
      cbn [str_prefix] in E' |- *.
      apply andb_true_iff in E' as (H1 & H2). rewrite H1. cbn [andb].
      rewrite <- py_shall in H2.
      apply (shall_prefix_back [104; 97; 108; 108]%N) in H2.
      * symmetry; exact H2.
      * cbn [In]. intros [H|[H|[H|[H|[]]]]]; discriminate H.
Qed.

Lemma str_replace_shall (s : str) :
  str_replace (py "shall") (py "must") s
  = replace_go (py "shall") (py "must") s 0.
Proof. reflexivity. Qed.

Section Rewrites.
Context {U : UnicodeData}.

(** C10. The rewrite of "shall" is a plain, case-sensitive replacement of a
    substring, while the selection of sentences is case-insensitive.  Every
    entry is [simplify] of a sentence selected through its lower-cased form,
    and [simplify] ends with [replace('shall', 'must')]: no entry holds
    "shall" any more; the replacement puts "must" for the first occurrence,
    wherever in a word it stands, and goes on behind it; a text without the
    exact substring is left as it is.  In "Shall we marshall it. SHALL pay."
    both sentences are selected, "marshall" becomes "marmust", and "Shall" and
    "SHALL" stay. *)
Theorem shall_rewrite_is_plain_substring_replacement (text : str) :
  extract_key_obligations text
  = map simplify
        (firstn 6 (filter (fun s =>
                             existsb (fun w => str_contains w (str_lower s))
                                     obligation_words)
                          (sentences_of text)))
  /\ (forall s,
        simplify s
        = str_replace (py "shall") (py "must")
            (str_replace (py "The Provider") (py "The service provider")
               (str_replace (py "The Client") (py "You") s)))
  /\ Forall (fun o => str_contains (py "shall") o = false)
            (extract_key_obligations text)
  /\ (forall a b,
        str_contains (py "shall") (a ++ py "shal") = false ->
        str_replace (py "shall") (py "must") (a ++ py "shall" ++ b)
        = a ++ py "must" ++ str_replace (py "shall") (py "must") b)
  /\ (forall s,
        str_contains (py "shall") s = false ->
        str_replace (py "shall") (py "must") s = s)
  /\ extract_key_obligations (py "Shall we marshall it. SHALL pay.")
     = [py "Shall we marmust it"; py "SHALL pay"].
Proof.
  split; [apply extract_key_obligations_eq|].
  split; [reflexivity|].
  split.
  { rewrite extract_key_obligations_eq. apply Forall_forall; intros o Ho.
    apply in_map_iff in Ho as (s & <- & _).
    unfold simplify. rewrite str_replace_shall. apply no_shall_left. }
  split.
  { intros a b H. rewrite !str_replace_shall.
    apply replace_go_first; [discriminate|exact H]. }
  split.
  { intros s H. rewrite str_replace_shall.
    apply replace_go_absent; [discriminate|exact H]. }
  vm_compute. reflexivity.
Qed.

End Rewrites.

(* ================================================================= *)
(** ** [str.strip] and [str.split] *)

Lemma dropWhile_suffix A (f : A -> bool) (l : list A) :
  exists pre, l = pre ++ dropWhile f l.
Proof.
  induction l as [|x l (pre & IH)]; simpl; [now exists []|].
  destruct (f x); [exists (x :: pre); simpl; congruence | now exists []].
Qed.

Lemma dropWhile_start (l : str) :
  space_at_start (dropWhile Py_UNICODE_ISSPACE l) = false.
Proof.
  induction l as [|x l IH]; simpl; [reflexivity|].
  destruct (Py_UNICODE_ISSPACE x) eqn:E; [exact IH|simpl; exact E].
Qed.

Lemma dropWhile_fixed (l : str) :
  space_at_start l = false -> dropWhile Py_UNICODE_ISSPACE l = l.
Proof. destruct l as [|x l]; simpl; [reflexivity|]. now intros ->. Qed.

Lemma Forall_dropWhile A (P : A -> Prop) (f : A -> bool) (l : list A) :
  Forall P l -> Forall P (dropWhile f l).
Proof.
  induction 1 as [|x l Hx Hl IH]; simpl; [constructor|].
  destruct (f x); [exact IH|now constructor].
Qed.

Lemma Forall_str_strip (P : char -> Prop) (s : str) :
  Forall P s -> Forall P (str_strip s).
Proof.
  intros H. unfold str_strip.
  apply Forall_rev, Forall_dropWhile, Forall_rev, Forall_dropWhile, H.
Qed.

Lemma str_strip_end (s : str) : space_at_end (str_strip s) = false.
Proof.
  unfold space_at_end, str_strip. rewrite rev_involutive.
  apply dropWhile_start.
Qed.

Lemma str_strip_start (s : str) : space_at_start (str_strip s) = false.
Proof.
  unfold str_strip.
  pose proof (dropWhile_start s) as H0.
  set (t := dropWhile Py_UNICODE_ISSPACE s) in *.
  destruct (dropWhile_suffix Py_UNICODE_ISSPACE (rev t)) as (pre & E).
  set (u := dropWhile Py_UNICODE_ISSPACE (rev t)) in *.
  assert (Et : t = rev u ++ rev pre)
    by now rewrite <- rev_app_distr, <- E, rev_involutive.
  destruct (rev u) as [|x w]; [reflexivity|].
  rewrite Et in H0. exact H0.
Qed.

Lemma str_strip_fixed (s : str) :
  space_at_start s = false -> space_at_end s = false -> str_strip s = s.
Proof.
  intros H1 H2. unfold str_strip.
  rewrite (dropWhile_fixed s H1), (dropWhile_fixed (rev s) H2).
  apply rev_involutive.
Qed.

Lemma str_strip_idem (s : str) : str_strip (str_strip s) = str_strip s.
Proof. apply str_strip_fixed; [apply str_strip_start|apply str_strip_end]. Qed.

(** A text without the separator character is one piece. *)
Lemma split_go_absent (c : char) (s cur : str) :
  ~ In c s -> split_go [c] s 0 cur = [rev cur ++ s].
Proof.
  revert cur; induction s as [|x s IH]; intros cur H; simpl.
  - now rewrite app_nil_r.
  - destruct (N.eqb_spec c x) as [->|Hne]; [exfalso; apply H; now left|].
    simpl. rewrite IH by (intros Hin; apply H; now right).
    simpl. now rewrite <- app_assoc.
Qed.

Lemma str_split_absent (c : char) (s : str) :
  ~ In c s -> str_split [c] s = [s].
Proof. intros H. unfold str_split. now rewrite split_go_absent. Qed.

(* ================================================================= *)
(** ** The matcher *)

Section Engine.
Context {U : UnicodeData}.
Variable ic : bool.

Lemma set_match_single (i : item) (x : char) :
  set_match ic false [i] x = item_match ic i x.
Proof. unfold set_match; simpl. now rewrite orb_false_r. Qed.

(** The matcher depends on its continuation only through its values. *)
Lemma star_loop_ext A step (k1 k2 : option char -> str -> option A) n p s :
  (forall p s (c1 c2 : option char -> str -> option A),
     (forall p' s', c1 p' s' = c2 p' s') -> step p s c1 = step p s c2) ->
  (forall p' s', k1 p' s' = k2 p' s') ->
  star_loop step k1 n p s = star_loop step k2 n p s.
Proof.
  intros Hstep Hk. revert p s; induction n as [|n IH]; intros p s.
  - apply Hk.
  - cbn [star_loop]. rewrite Hk.
    erewrite Hstep; [reflexivity|].
    intros p' s'. cbv beta. now rewrite IH.
Qed.

Lemma mre_ext A (r : regex) (k1 k2 : option char -> str -> option A) p s :
  (forall p' s', k1 p' s' = k2 p' s') -> mre ic r p s k1 = mre ic r p s k2.
Proof.
  revert k1 k2 p s; induction r; intros k1 k2 p s Hk; cbn [mre].
  - destruct s; [reflexivity|]. now rewrite Hk.
  - now rewrite Hk.
  - now rewrite Hk.
  - apply Hk.
  - apply IHr1. intros p' s'. now apply IHr2.
  - apply star_loop_ext; [|exact Hk]. intros p0 s0 c1 c2 Hc. now apply IHr.
  - rewrite (IHr k1 k2 p s Hk). now rewrite Hk.
Qed.

(** The bound on the iterations of a star is never what stops it: any bound
    above the length of the text gives the same result. *)
Lemma star_loop_fuel A (r : regex) (k : option char -> str -> option A) n m p s :
  length s < n -> length s < m ->
  star_loop (mre ic r) k n p s = star_loop (mre ic r) k m p s.
Proof.
  revert m p s; induction n as [|n IH]; intros m p s Hn Hm; [lia|].
  destruct m as [|m]; [lia|]. cbn [star_loop].
  erewrite mre_ext; [reflexivity|].
  intros p' s'. cbv beta.
  destruct (length s' <? length s) eqn:E; [|reflexivity].
  apply Nat.ltb_lt in E. apply IH; lia.
Qed.

(** A star never fails when what follows it accepts the position it starts at. *)
Lemma star_loop_total A step (k : option char -> str -> option A) n p s :
  k p s <> None -> star_loop step k n p s <> None.
Proof.
  intros H. destruct n; simpl; [exact H|].
  destruct (step p s _); [discriminate|exact H].
Qed.

(** What the star of a one-character step consumes is a run of characters
    that the step accepts. *)
Lemma star_loop_run_inv A (f : char -> bool)
      (step : option char -> str -> (option char -> str -> option A) -> option A)
      (k : option char -> str -> option A) n p s v :
  (forall p s k, step p s k = match s with
                              | x :: s' => if f x then k (Some x) s' else None
                              | [] => None
                              end) ->
  star_loop step k n p s = Some v ->
  exists pre rest p',
    s = pre ++ rest /\ forallb f pre = true /\ k p' rest = Some v.
Proof.
  intros Hstep. revert p s; induction n as [|n IH]; intros p s H.
  - now exists [], s, p.
  - cbn [star_loop] in H. rewrite Hstep in H.
    destruct s as [|x s']; [now exists [], [], p|].
    destruct (f x) eqn:Ex; [|now exists [], (x :: s'), p].
    assert (El : (length s' <? length (x :: s')) = true)
      by (apply Nat.ltb_lt; simpl; lia).
    rewrite El in H.
    destruct (star_loop step k n (Some x) s') eqn:E.
    + injection H as <-. apply IH in E as (pre & rest & p' & -> & Hpre & Hk).
      exists (x :: pre), rest, p'. simpl. now rewrite Ex, Hpre.
    + now exists [], (x :: s'), p.
Qed.

Lemma star_loop_set_inv A neg items (k : option char -> str -> option A) n p s v :
  star_loop (mre ic (RSet neg items)) k n p s = Some v ->
  exists pre rest p',
    s = pre ++ rest
    /\ forallb (set_match ic neg items) pre = true
    /\ k p' rest = Some v.
Proof. apply star_loop_run_inv. reflexivity. Qed.

Lemma length_cons_sub A (x : A) (pre rest : list A) :
  length (x :: pre ++ rest) - length rest = S (length pre).
Proof. cbn [length]. rewrite length_app. lia. Qed.

(** *** [\s+] *)

Lemma match_here_spaces_no p x s ne :
  Py_UNICODE_ISSPACE x = false -> match_here ic re_spaces p (x :: s) ne = None.
Proof.
  intros H. unfold match_here, re_spaces, RPlus, RSpace. cbn [mre].
  now rewrite set_match_single; cbn [item_match]; rewrite H.
Qed.

Lemma match_here_spaces_yes p x s ne :
  Py_UNICODE_ISSPACE x = true ->
  exists m, match_here ic re_spaces p (x :: s) ne = Some (S m).
Proof.
  intros H. unfold match_here, re_spaces, RPlus, RSpace. cbn [mre].
  rewrite set_match_single; cbn [item_match]; rewrite H.
  match goal with |- exists m, ?t = _ => destruct t as [v|] eqn:E end.
  - apply star_loop_set_inv in E as (pre & rest & p' & -> & _ & Hk).
    rewrite length_cons_sub in Hk. exists (length pre).
    rewrite andb_false_r in Hk. now symmetry.
  - exfalso. revert E. apply star_loop_total.
    replace (length (x :: s) - length s) with 1 by (cbn [length]; lia).
    rewrite andb_false_r. discriminate.
Qed.

(** A character kept by the scan for [\s+] is not whitespace. *)
Lemma scan_spaces_keep p s skip :
  Forall (fun pc => match pc with
                    | Keep c => Py_UNICODE_ISSPACE c = false
                    | Hit _ => True
                    end)
         (scan ic re_spaces p s skip).
Proof.
  revert p skip; induction s as [|x s IH]; intros p skip.
  - destruct skip; simpl; constructor.
  - destruct skip as [|n]; [|apply IH].
    cbn [scan]. destruct (Py_UNICODE_ISSPACE x) eqn:E.
    + destruct (@match_here_spaces_yes p x s false E) as (m & ->).
      constructor; [exact I|apply IH].
    + rewrite (@match_here_spaces_no p x s false E).
      constructor; [exact E|apply IH].
Qed.

(** After [re.sub(r'\s+', ' ', s)] the only whitespace left is the space. *)
Lemma re_sub_spaces_only_space (s : str) :
  Forall (fun c => Py_UNICODE_ISSPACE c = true -> c = 32%N)
         (re_sub ic re_spaces (py " ") s).
Proof.
  unfold re_sub. pose proof (scan_spaces_keep None s 0) as H.
  induction H as [|pc l Hpc Hl IH]; simpl; [constructor|].
  apply Forall_app; split; [|exact IH].
  destruct pc as [c|m].
  - constructor; [|constructor]. intros Hc; congruence.
  - constructor; [|constructor]. reflexivity.
Qed.

(** *** A character set *)

Lemma scan_set neg items p s :
  scan ic (RSet neg items) p s 0
  = map (fun c => if set_match ic neg items c then Hit [c] else Keep c) s.
Proof.
  revert p; induction s as [|x s IH]; intros p; [reflexivity|].
  cbn [scan map]. unfold match_here. cbn [mre].
  destruct (set_match ic neg items x).
  - replace (length (x :: s) - length s) with 1 by (cbn [length]; lia).
    cbn [andb firstn]. now rewrite IH.
  - now rewrite IH.
Qed.

(** [re.sub] of a character set by the empty string is a filter. *)
Lemma re_sub_set_empty neg items s :
  re_sub ic (RSet neg items) [] s
  = filter (fun c => negb (set_match ic neg items c)) s.
Proof.
  unfold re_sub. rewrite scan_set.
  induction s as [|x s IH]; simpl; [reflexivity|].
  destruct (set_match ic neg items x); simpl; now rewrite IH.
Qed.

End Engine.

(** *** [^\s*\d+\.] *)

Section SectionHeading.
Context {U : UnicodeData}.

Lemma re_section_inv (line : str) :
  re_match false re_section line = true ->
  exists ws ds rest,
    line = ws ++ ds ++ ch "." :: rest
    /\ forallb Py_UNICODE_ISSPACE ws = true
    /\ ds <> []
    /\ forallb isdecimal ds = true.
Proof.
  unfold re_match, match_here, re_section, RSeqs, RPlus, RSpace, RDigit, RChar.
  cbn [mre].
  match goal with |- context [star_loop ?st ?k ?n ?p ?s] =>
    destruct (star_loop st k n p s) as [v|] eqn:E end; [intros _|discriminate].
  apply star_loop_set_inv in E as (ws & r1 & p1 & -> & Hws & E).
  destruct r1 as [|d r1]; [discriminate E|].
  destruct (set_match false false [IDigit] d) eqn:Ed; [|discriminate E].
  apply star_loop_set_inv in E as (ds & r2 & p2 & -> & Hds & E).
  destruct r2 as [|c r2]; [discriminate E|].
  destruct (set_match false false [ILit (ch ".")] c) eqn:Ec; [|discriminate E].
  exists ws, (d :: ds), r2.
  rewrite set_match_single in Ec, Ed. cbn [item_match] in Ec, Ed.
  apply N.eqb_eq in Ec. subst c.
  split; [reflexivity|].
  split; [|split; [discriminate|]].
  - clear - Hws. induction ws as [|w ws IH]; [reflexivity|].
    cbn [forallb] in *. apply andb_true_iff in Hws as (H1 & H2).
    rewrite set_match_single in H1. cbn [item_match] in H1.
    now rewrite H1, IH.
  - cbn [forallb]. rewrite Ed. cbn [andb].
    clear - Hds. induction ds as [|w ds IH]; [reflexivity|].
    cbn [forallb] in *. apply andb_true_iff in Hds as (H1 & H2).
    rewrite set_match_single in H1. cbn [item_match] in H1.
    now rewrite H1, IH.
Qed.

End SectionHeading.

(* ================================================================= *)
(** ** The normalizer *)

Section Normalizer.
Context {U : UnicodeData}.

Lemma re_special_keeps (c : char) :
  negb (set_match false true
          [IWord; ISpace; ILit (ch "."); ILit (ch ","); ILit (ch ";");
           ILit (ch ":"); ILit (ch "!"); ILit (ch "?"); ILit (ch "(");
           ILit (ch ")"); ILit (ch "-")] c)
  = kept_by_clean_text c.
Proof.
  unfold set_match, kept_by_clean_text.
  match goal with |- negb (xorb true ?b) = ?r => change (negb (negb b) = r) end.
  rewrite negb_involutive.
  cbn [existsb item_match]. rewrite orb_assoc. reflexivity.
Qed.

(** [clean_text] without the matcher: the runs of whitespace replaced, the
    characters outside the kept set filtered out, the ends trimmed. *)
Lemma clean_text_eq (text : str) :
  clean_text text
  = str_strip (filter kept_by_clean_text
                      (re_sub false re_spaces (py " ") text)).
Proof.
  unfold clean_text, re_special. rewrite re_sub_set_empty.
  f_equal. apply filter_ext. intros c. apply re_special_keeps.
Qed.

Lemma Forall_filter_keep A (P : A -> Prop) (f : A -> bool) (l : list A) :
  Forall P l -> Forall P (filter f l).
Proof.
  induction 1 as [|x l Hx Hl IH]; simpl; [constructor|].
  destruct (f x); [now constructor|exact IH].
Qed.

Lemma Forall_filter_true A (f : A -> bool) (l : list A) :
  Forall (fun x => f x = true) (filter f l).
Proof. apply Forall_forall; intros x Hx. now apply filter_In in Hx. Qed.

Lemma clean_text_only_space (text : str) :
  Forall (fun c => Py_UNICODE_ISSPACE c = true -> c = 32%N) (clean_text text).
Proof.
  rewrite clean_text_eq.
  apply Forall_str_strip, Forall_filter_keep, re_sub_spaces_only_space.
Qed.

Lemma clean_text_kept (text : str) :
  Forall (fun c => kept_by_clean_text c = true) (clean_text text).
Proof.
  rewrite clean_text_eq. apply Forall_str_strip, Forall_filter_true.
Qed.

Lemma clean_text_no_newline (text : str) : ~ In 10%N (clean_text text).
Proof.
  intros H. pose proof (clean_text_only_space text) as F.
  rewrite Forall_forall in F. specialize (F _ H eq_refl). discriminate F.
Qed.

Lemma clean_text_stripped (text : str) :
  str_strip (clean_text text) = clean_text text.
Proof. unfold clean_text. apply str_strip_idem. Qed.

(** C3, as the code has it.  Every character of the cleaned text is a word
    character ([\w]: a letter or digit of any script, or the underscore), the
    space, or one of [.,;:!?()-]; the only whitespace in it is the space; and
    it neither starts nor ends with one. *)
Theorem clean_text_alphabet (text : str) :
  Forall (fun c => is_word c = true \/ c = 32%N \/ In c punctuation)
         (clean_text text)
  /\ Forall (fun c => Py_UNICODE_ISSPACE c = true -> c = 32%N) (clean_text text)
  /\ space_at_start (clean_text text) = false
  /\ space_at_end (clean_text text) = false.
Proof.
  split; [|split; [apply clean_text_only_space|split]].
  - pose proof (clean_text_only_space text) as F1.
    pose proof (clean_text_kept text) as F2.
    rewrite Forall_forall in *. intros c Hc.
    specialize (F1 c Hc). specialize (F2 c Hc).
    unfold kept_by_clean_text in F2.
    apply orb_true_iff in F2 as [F2|F2];
      [apply orb_true_iff in F2 as [F2|F2]|]; [now left|right; left; auto|].
    right; right. apply existsb_exists in F2 as (d & Hd & E).
    apply N.eqb_eq in E. now subst.
  - unfold clean_text. apply str_strip_start.
  - unfold clean_text. apply str_strip_end.
Qed.

End Normalizer.

(** C3, as stated, fails on both counts: "a_b" keeps its underscore, which is
    outside [[A-Za-z0-9 .,;:!?()-]], and "a @ b" is cleaned to "a  b", where
    dropping the "@" leaves two spaces in a row.  (Both texts are ASCII: the
    tables above U+007F play no part.) *)
Lemma clean_text_leaves_underscore_and_space_run :
  ~ (forall (U : UnicodeData) (text : str),
       forallb in_spec_alphabet (clean_text text) = true)
  /\ ~ (forall (U : UnicodeData) (text : str),
          has_space_run (clean_text text) = false).
Proof.
  split; intros H.
  - specialize (H ascii_tables (py "a_b")). vm_compute in H. discriminate H.
  - specialize (H ascii_tables (py "a @ b")). vm_compute in H. discriminate H.
Qed.

(** C4.  [clean_text] is not idempotent on "a @ b": the first pass gives
    "a  b" (the whitespace is collapsed before the "@" is dropped), the
    second "a b". *)
Theorem clean_text_twice_differs (U : UnicodeData) :
  clean_text (py "a @ b") = py "a  b"
  /\ clean_text (clean_text (py "a @ b")) = py "a b"
  /\ clean_text (clean_text (py "a @ b")) <> clean_text (py "a @ b").
Proof. vm_compute. repeat split. discriminate. Qed.

(* ================================================================= *)
(** ** The report *)

Section Report.
Context {U : UnicodeData}.

Lemma analyze_document_structure_ok (text : str) :
  exists paragraphs avg,
    analyze_document_structure text
    = Ok [ ("sections"%string, VStrs (numbered_lines text));
           ("sentence_count"%string, VInt (len (sentences_of text)));
           ("paragraph_count"%string, VInt paragraphs);
           ("avg_sentence_length"%string, avg) ].
Proof.
  unfold analyze_document_structure.
  rewrite (append_loop (fun line => re_match false re_section (str_strip line))
                       str_strip).
  rewrite app_nil_l. fold (numbered_lines text).
  destruct (sentences_of text) as [|s0 rest] eqn:E.
  - cbn [nonempty bind]. eauto.
  - cbn [nonempty]. rewrite py_truediv_pos by apply len_pos_of_cons.
    cbn [bind]. eauto.
Qed.

Lemma calculate_readability_ok (text : str) :
  exists readability, calculate_readability text = Ok readability.
Proof.
  unfold calculate_readability.
  destruct (filter _ (str_split (py ".") text)) as [|s0 rest];
    cbn [nonempty negb]; [eauto|].
  rewrite py_truediv_pos by apply len_pos_of_cons. cbn [bind].
  destruct (Qltb _ (15 # 1)); [eauto|].
  destruct (Qltb _ (25 # 1)); eauto.
Qed.

(** The report of a text that is not empty. *)
Lemma analyze_document_report (fs : filesystem) (now file_path : str) :
  let text := read_text_file fs file_path in
  let cleaned := clean_text text in
  text <> [] ->
  exists structure readability,
    analyze_document_structure cleaned = Ok structure
    /\ calculate_readability cleaned = Ok readability
    /\ analyze_document fs now file_path
       = Ok [ ("document_info"%string,
               VDict [ ("file_path"%string, VStr file_path);
                       ("word_count"%string, VInt (len (str_words cleaned)));
                       ("analysis_date"%string, VStr now) ]);
              ("key_terms"%string, VStrs (extract_key_terms cleaned));
              ("structure"%string, VDict structure);
              ("plain_language_summary"%string, VStr (summary_by_spec cleaned));
              ("key_obligations"%string, VStrs (extract_key_obligations cleaned));
              ("risks_and_warnings"%string,
               VStrs (identify_risks_and_warnings cleaned));
              ("readability"%string, VDict readability);
              ("original_preview"%string,
               VStr (if 300 <? length cleaned
                     then firstn 300 cleaned ++ py "..."
                     else cleaned)) ].
Proof.
  intros text cleaned Htext. subst cleaned. unfold analyze_document.
  fold text. clearbody text. set (cleaned := clean_text text).
  destruct text as [|c t] eqn:E; [congruence|]. rewrite <- E in *.
  replace (nonempty text) with true by now rewrite E.
  cbn [negb].
  destruct (analyze_document_structure_ok cleaned) as (pg & avg & Hs).
  destruct (calculate_readability_ok cleaned) as (rd & Hr).
  pose proof (create_simple_summary_eq cleaned) as Hsum.
  rewrite Hs; cbn [bind]. rewrite Hsum; cbn [bind]. rewrite Hr; cbn [bind].
  eauto.
Qed.

(** C2, as the code has it.  On the empty text (an empty file, or one that
    cannot be read) the analysis returns a report that holds an error message
    and nothing else.  On every other text it returns, without raising, a
    report in which each field is present, empty or not: the key terms, the
    structure, the summary, the obligations, the risks and the readability
    are what the extractors give for the cleaned text. *)
Theorem analyze_document_total (fs : filesystem) (now file_path : str) :
  let text := read_text_file fs file_path in
  let cleaned := clean_text text in
  match text with
  | [] =>
      analyze_document fs now file_path
      = Ok [ ("error"%string, VStr (py "Could not read the document")) ]
  | _ :: _ =>
      exists report structure readability,
        analyze_document fs now file_path = Ok report
        /\ forallb (fun field => dict_has field report) report_fields = true
        /\ dict_get "key_terms" report = Some (VStrs (extract_key_terms cleaned))
        /\ analyze_document_structure cleaned = Ok structure
        /\ dict_get "structure" report = Some (VDict structure)
        /\ create_simple_summary cleaned = Ok (summary_by_spec cleaned)
        /\ dict_get "plain_language_summary" report
           = Some (VStr (summary_by_spec cleaned))
        /\ dict_get "key_obligations" report
           = Some (VStrs (extract_key_obligations cleaned))
        /\ dict_get "risks_and_warnings" report
           = Some (VStrs (identify_risks_and_warnings cleaned))
        /\ calculate_readability cleaned = Ok readability
        /\ dict_get "readability" report = Some (VDict readability)
  end.
Proof.
  cbv zeta.
  pose proof (analyze_document_report fs now file_path) as H. cbv zeta in H.
  destruct (read_text_file fs file_path) as [|c t] eqn:E.
  - unfold analyze_document. now rewrite E.
  - destruct H as (structure & readability & Hs & Hr & Hrep); [discriminate|].
    eexists; exists structure, readability.
    split; [exact Hrep|].
    pose proof (create_simple_summary_eq (clean_text (c :: t))) as Hsum.
    repeat split; assumption || reflexivity.
Qed.

End Report.

(** C2, as stated, fails on the empty text: the report of an empty file has
    none of the fields. *)
Lemma analyze_document_empty_has_no_fields :
  ~ (forall (U : UnicodeData) (fs : filesystem) (now file_path : str),
       exists report,
         analyze_document fs now file_path = Ok report
         /\ forallb (fun field => dict_has field report) report_fields = true).
Proof.
  intros H.
  destruct (H ascii_tables (fun _ => Some []) [] []) as (report & E & F).
  vm_compute in E. injection E as <-. vm_compute in F. discriminate F.
Qed.

(* ================================================================= *)
(** ** Sections, as the pipeline finds them *)

Section Sections.
Context {U : UnicodeData}.

(** The cleaned text is a single line. *)
Lemma numbered_lines_cleaned (text : str) :
  numbered_lines (clean_text text)
  = if re_match false re_section (clean_text text)
    then [clean_text text]
    else [].
Proof.
  unfold numbered_lines, newline.
  rewrite str_split_absent by apply clean_text_no_newline.
  cbn [filter]. rewrite clean_text_stripped.
  destruct (re_match false re_section (clean_text text)); [|reflexivity].
  cbn [map]. now rewrite clean_text_stripped.
Qed.

Lemma section_heading_digits (text : str) :
  re_match false re_section (clean_text text) = true ->
  exists digits rest,
    digits <> []
    /\ forallb isdecimal digits = true
    /\ clean_text text = digits ++ ch "." :: rest.
Proof.
  intros H. apply re_section_inv in H as (ws & ds & rest & E & Hws & Hds & Hd).
  exists ds, rest. split; [exact Hds|]. split; [exact Hd|].
  destruct ws as [|w ws]; [exact E|]. exfalso.
  assert (Hs : space_at_start (clean_text text) = false)
    by (unfold clean_text; apply str_strip_start).
  rewrite E in Hs. cbn [app space_at_start] in Hs.
  cbn [forallb] in Hws. apply andb_true_iff in Hws as (Hw & _). congruence.
Qed.

(** C9.  The pipeline looks for sections in the cleaned text, which holds no
    newline: the sections list of the report has at most one entry, and when
    it has one, that entry is the whole cleaned text, which then begins with
    digits followed by a period.  (The empty text has no such list: its
    report is the error report.) *)
Theorem sections_of_report_at_most_one (fs : filesystem) (now file_path : str) :
  let text := read_text_file fs file_path in
  let cleaned := clean_text text in
  match text with
  | [] =>
      analyze_document fs now file_path
      = Ok [ ("error"%string, VStr (py "Could not read the document")) ]
  | _ :: _ =>
      exists report structure sections,
        analyze_document fs now file_path = Ok report
        /\ dict_get "structure" report = Some (VDict structure)
        /\ dict_get "sections" structure = Some (VStrs sections)
        /\ ~ In 10%N cleaned
        /\ length sections <= 1
        /\ (sections = []
            \/ sections = [cleaned]
               /\ exists digits rest,
                    digits <> []
                    /\ forallb isdecimal digits = true
                    /\ cleaned = digits ++ ch "." :: rest)
  end.
Proof.
  cbv zeta.
  pose proof (analyze_document_report fs now file_path) as H. cbv zeta in H.
  destruct (read_text_file fs file_path) as [|c t] eqn:E.
  - unfold analyze_document. now rewrite E.
  - destruct H as (structure & readability & Hs & _ & Hrep); [discriminate|].
    set (cleaned := clean_text (c :: t)) in *.
    destruct (analyze_document_structure_ok cleaned) as (pg & avg & Hs').
    rewrite Hs' in Hs. injection Hs as <-.
    eexists; eexists; exists (numbered_lines cleaned).
    split; [exact Hrep|]. split; [reflexivity|]. split; [reflexivity|].
    split; [apply clean_text_no_newline|].
    unfold cleaned. rewrite numbered_lines_cleaned.
    destruct (re_match false re_section (clean_text (c :: t))) eqn:Em.
    + split; [simpl; lia|]. right. split; [reflexivity|].
      now apply section_heading_digits.
    + split; [simpl; lia|]. now left.
Qed.

End Sections.

(* ================================================================= *)
(** ** The sample service agreement *)

(** The report of the sample, in full. *)
Lemma sample_report (U : UnicodeData) (now file_path : str) :
  analyze_document (fun _ => Some create_sample_legal_text) now file_path
  = Ok [ ("document_info"%string,
          VDict [ ("file_path"%string, VStr file_path);
                  ("word_count"%string, VInt 157);
                  ("analysis_date"%string, VStr now) ]);
         ("key_terms"%string,
          VStrs
            [ py "SERVICE AGREEMENT This Service Agreement";
              py "LIABILITY LIMITATION Providers liability shall not exceed the total amount paid by Client under this Agreement";
              py "GOVERNING LAW This Agreement";
              py "TERMINATION Either party may terminate this Agreement";
              py "LIABILITY";
              py "liability";
              py "GOVERNING LAW";
              py "arbitration";
              py "CONFIDENTIALITY";
              py "confidentiality";
              py "TERMINATION";
              py "PAYMENT";
              py "Payment" ]);
         ("structure"%string,
          VDict [ ("sections"%string, VStrs []);
                  ("sentence_count"%string, VInt 19);
                  ("paragraph_count"%string, VInt 1);
                  ("avg_sentence_length"%string, VFloat (binary64 (158 # 19))) ]);
         ("plain_language_summary"%string,
          VStr (py "SERVICE AGREEMENT This Service Agreement is entered into between Company XYZ (Provider) and the Client. SERVICES Provider agrees to perform consulting services as described in Exhibit A. All services shall be performed in a professional manner according to industry standards. PAYMENT TERMS Client agrees to pay Provider the fees outlined in Exhibit A."));
         ("key_obligations"%string,
          VStrs
            [ py "SERVICES Provider agrees to perform consulting services as described in Exhibit A";
              py "All services must be performed in a professional manner according to industry standards";
              py "PAYMENT TERMS Client agrees to pay Provider the fees outlined in Exhibit A";
              py "LIABILITY LIMITATION Providers liability must not exceed the total amount paid by Client under this Agreement";
              py "Provider must not be liable for indirect, incidental, or consequential damages";
              py "GOVERNING LAW This Agreement must be governed by state law" ]);
         ("risks_and_warnings"%string,
          VStrs
            [ warning_marker ++ py "PAYMENT TERMS Client agrees to pay Provider the fees outlined in Exhibit A";
              warning_marker ++ py "Late payments may incur a fee of 1";
              warning_marker ++ py "LIABILITY LIMITATION Providers liability shall not exceed the total amount paid by Client under this Agreement";
              warning_marker ++ py "Provider shall not be liable for indirect, incidental, or consequential damages";
              warning_marker ++ py "Disputes shall be resolved through binding arbitration" ]);
         ("readability"%string,
          VDict [ ("avg_words_per_sentence"%string, VFloat (binary64 (83 # 10)));
                  ("total_words"%string, VInt 157);
                  ("total_sentences"%string, VInt 19);
                  ("score"%string, VStr (py "Good"));
                  ("level"%string, VStr (py "Easy to read")) ]);
         ("original_preview"%string,
          VStr (py "SERVICE AGREEMENT This Service Agreement is entered into between Company XYZ (Provider) and the Client. 1. SERVICES Provider agrees to perform consulting services as described in Exhibit A. All services shall be performed in a professional manner according to industry standards. 2. PAYMENT TERMS Cli...")) ].
Proof. vm_compute. reflexivity. Qed.

Lemma VStrs_inj (a b : list str) :
  Some (VStrs a) = Some (VStrs b) -> a = b.
Proof.
  unfold VStrs. intros H. injection H as H. revert b H.
  induction a as [|x a IH]; intros [|y b] H; try discriminate H; [reflexivity|].
  cbn [map] in H. injection H as -> H. f_equal. now apply IH.
Qed.

(** C1, as the code has it.  The sample is analysed without error.  Its key
    terms are the matched pieces of text, in the case they have in the
    document: "liability" and "arbitration" are among them, and so are
    "confidentiality", "CONFIDENTIALITY" and "TERMINATION", while the bare
    words "confidential" and "termination" are not.  The readability tier is
    "Easy to read", score "Good". *)
Theorem sample_agreement_analysis (U : UnicodeData) (now file_path : str) :
  exists report key_terms readability,
    analyze_document (fun _ => Some create_sample_legal_text) now file_path
    = Ok report
    /\ dict_get "key_terms" report = Some (VStrs key_terms)
    /\ In (py "liability") key_terms
    /\ In (py "arbitration") key_terms
    /\ In (py "confidentiality") key_terms
    /\ In (py "CONFIDENTIALITY") key_terms
    /\ In (py "TERMINATION") key_terms
    /\ ~ In (py "confidential") key_terms
    /\ ~ In (py "termination") key_terms
    /\ dict_get "readability" report = Some (VDict readability)
    /\ dict_get "score" readability = Some (VStr (py "Good"))
    /\ dict_get "level" readability = Some (VStr (py "Easy to read")).
Proof.
  eexists; eexists; eexists.
  split; [apply sample_report|].
  split; [reflexivity|].
  repeat match goal with
         | |- In _ _ /\ _ =>
             split; [vm_compute; repeat ((left; reflexivity) || right)|]
         | |- ~ In _ _ /\ _ =>
             split; [vm_compute; intuition discriminate|]
         end.
  repeat split.
Qed.

(** C1, as stated, fails on the sample on two counts: the report has no
    section at all, not six (the cleaned text is one line, and it starts with
    "SERVICE AGREEMENT"), and its key terms hold neither "confidential" nor
    "termination".  (The sample is ASCII, and its report is the same
    whatever the tables above U+007F: [sample_report].) *)
Lemma sample_sections_are_not_six :
  ~ (exists report structure sections,
       analyze_document (U := ascii_tables)
         (fun _ => Some create_sample_legal_text)
         (py "2026-01-01 00:00:00") (py "sample_contract.txt")
       = Ok report
       /\ dict_get "structure" report = Some (VDict structure)
       /\ dict_get "sections" structure = Some (VStrs sections)
       /\ length sections = 6)
  /\ ~ (exists report key_terms,
          analyze_document (U := ascii_tables)
            (fun _ => Some create_sample_legal_text)
            (py "2026-01-01 00:00:00") (py "sample_contract.txt")
          = Ok report
          /\ dict_get "key_terms" report = Some (VStrs key_terms)
          /\ In (py "liability") key_terms
          /\ In (py "confidential") key_terms
          /\ In (py "arbitration") key_terms
          /\ In (py "termination") key_terms).
Proof.
  split.
  - intros (report & structure & sections & E & Hst & Hsec & Hlen).
    rewrite sample_report in E. injection E as <-.
    cbn in Hst. injection Hst as <-.
    cbn in Hsec. destruct sections; [discriminate Hlen|discriminate Hsec].
  - intros (report & key_terms & E & Hkt & _ & Hc & _).
    rewrite sample_report in E. injection E as <-.
    cbn [dict_get String.eqb Ascii.eqb Bool.eqb] in Hkt.
    apply VStrs_inj in Hkt.
    subst key_terms. vm_compute in Hc. intuition discriminate.
Qed.

(* ================================================================= *)
(** * Further properties *)

(** ** The first substitution of [clean_text], without the matcher *)

Lemma leading_spaces_length (s : str) :
  length s = leading_spaces s + length (dropWhile Py_UNICODE_ISSPACE s).
Proof.
  induction s as [|x s IH]; simpl; [reflexivity|].
  destruct (Py_UNICODE_ISSPACE x); simpl; lia.
Qed.

Lemma dropWhile_ext A (f g : A -> bool) (l : list A) :
  (forall x, f x = g x) -> dropWhile f l = dropWhile g l.
Proof.
  intros H. induction l as [|x l IH]; simpl; [reflexivity|].
  rewrite H. now rewrite IH.
Qed.

Section Greedy.
Context {U : UnicodeData}.
Variable ic : bool.

(** A star of a one-character step, followed by something that always
    accepts, takes the whole run. *)
Lemma star_loop_greedy A (f : char -> bool)
      (step : option char -> str -> (option char -> str -> option A) -> option A)
      (k : option char -> str -> option A) n p s :
  (forall p s k, step p s k = match s with
                              | x :: s' => if f x then k (Some x) s' else None
                              | [] => None
                              end) ->
  (forall p s, k p s <> None) ->
  length s < n ->
  exists p', star_loop step k n p s = k p' (dropWhile f s).
Proof.
  intros Hstep Hk. revert p s; induction n as [|n IH]; intros p s Hn; [lia|].
  cbn [star_loop]. rewrite Hstep.
  destruct s as [|x s']; [now exists p|].
  cbn [dropWhile]. destruct (f x) eqn:Ex; [|now exists p].
  assert (El : (length s' <? length (x :: s')) = true)
    by (apply Nat.ltb_lt; simpl; lia).
  rewrite El.
  destruct (IH (Some x) s') as (p' & E); [simpl in Hn; lia|].
  exists p'. rewrite E.
  destruct (k p' (dropWhile f s')) eqn:Ek; [reflexivity|].
  now apply Hk in Ek.
Qed.

(** At a whitespace character [\s+] matches the whole run that starts there. *)
Lemma match_here_spaces_run p x s :
  Py_UNICODE_ISSPACE x = true ->
  match_here ic re_spaces p (x :: s) false = Some (S (leading_spaces s)).
Proof.
  intros H. unfold match_here, re_spaces, RPlus, RSpace. cbn [mre].
  rewrite set_match_single; cbn [item_match]; rewrite H.
  match goal with |- context [star_loop ?st ?k ?n ?p0 ?s0] =>
    destruct (@star_loop_greedy nat (set_match ic false [ISpace]) st k n p0 s0)
      as (p' & E)
  end.
  - reflexivity.
  - intros p0 s0. cbv beta zeta. cbn [andb]. discriminate.
  - lia.
  - rewrite E. cbv beta zeta. cbn [andb]. f_equal.
    rewrite (dropWhile_ext _ Py_UNICODE_ISSPACE)
      by (intros c; apply set_match_single).
    pose proof (leading_spaces_length s) as L.
    cbn [length]. unfold str, char in *. lia.
Qed.

(** The scan for [\s+], at a position outside a run and at a position inside
    a run whose rest is being passed. *)
Lemma scan_spaces_collapse (s : str) :
  forall p,
    flat_map (fun pc => match pc with Hit _ => py " " | Keep c => [c] end)
             (scan ic re_spaces p s 0)
    = collapse_go false s
    /\ flat_map (fun pc => match pc with Hit _ => py " " | Keep c => [c] end)
                (scan ic re_spaces p s (leading_spaces s))
       = collapse_go true s.
Proof.
  induction s as [|x s IH]; intros p.
  - split; reflexivity.
  - assert (H0 : flat_map (fun pc => match pc with
                                     | Hit _ => py " "
                                     | Keep c => [c]
                                     end)
                          (scan ic re_spaces p (x :: s) 0)
                 = collapse_go false (x :: s)).
    { cbn [scan collapse_go]. destruct (Py_UNICODE_ISSPACE x) eqn:E.
      - rewrite (@match_here_spaces_run p x s E). cbn [flat_map].
        rewrite (proj2 (IH (Some x))). reflexivity.
      - rewrite (@match_here_spaces_no _ ic p x s false E). cbn [flat_map].
        rewrite (proj1 (IH (Some x))). reflexivity. }
    split; [exact H0|].
    cbn [leading_spaces collapse_go]. destruct (Py_UNICODE_ISSPACE x) eqn:E.
    + cbn [scan]. apply (proj2 (IH (Some x))).
    + rewrite H0. cbn [collapse_go]. now rewrite E.
Qed.

(** [re.sub(r'\s+', ' ', s)] replaces every run of whitespace by one space. *)
Lemma re_sub_spaces_eq (s : str) :
  re_sub ic re_spaces (py " ") s = collapse_spaces s.
Proof. unfold re_sub. apply (proj1 (scan_spaces_collapse s None)). Qed.

End Greedy.

(** ** Collapsed whitespace *)

Lemma has_space_run_cons (a : char) (s : str) :
  has_space_run (a :: s)
  = Py_UNICODE_ISSPACE a && space_at_start s || has_space_run s.
Proof. destruct s as [|b s]; [now rewrite andb_false_r|reflexivity]. Qed.

Lemma has_space_run_app (a b : str) :
  has_space_run (a ++ b) = false ->
  has_space_run a = false /\ has_space_run b = false.
Proof.
  induction a as [|x a IH]; intros H; [now split|].
  cbn [app] in H. rewrite has_space_run_cons in *.
  apply orb_false_iff in H as (H1 & H2). apply IH in H2 as (Ha & Hb).
  split; [|exact Hb]. rewrite Ha, orb_false_r.
  destruct a as [|y a]; [now rewrite andb_false_r|exact H1].
Qed.

Lemma collapse_go_filter (h : char -> bool) (b : bool) (s : str) :
  filter (fun c => h c && not_space c) (collapse_go b s)
  = filter (fun c => h c && not_space c) s.
Proof.
  revert b; induction s as [|x s IH]; intros b; [reflexivity|].
  cbn [collapse_go]. destruct (Py_UNICODE_ISSPACE x) eqn:E.
  - assert (Hx : h x && not_space x = false)
      by (unfold not_space; rewrite E; apply andb_false_r).
    cbn [filter]. rewrite Hx. destruct b; [apply IH|].
    cbn [filter]. replace (h 32%N && not_space 32%N) with false
      by (symmetry; apply andb_false_r).
    apply IH.
  - cbn [filter]. now rewrite IH.
Qed.

Lemma collapse_go_length (b : bool) (s : str) :
  length (collapse_go b s) <= length s.
Proof.
  revert b; induction s as [|x s IH]; intros b; [reflexivity|].
  pose proof (IH true) as Ht. pose proof (IH false) as Hf.
  cbn [collapse_go]. destruct (Py_UNICODE_ISSPACE x); [destruct b|];
    cbn [length]; unfold str, char in *; lia.
Qed.

Lemma collapse_go_no_run (b : bool) (s : str) :
  has_space_run (collapse_go b s) = false
  /\ (b = true -> space_at_start (collapse_go b s) = false).
Proof.
  revert b; induction s as [|x s IH]; intros b; [now split|].
  cbn [collapse_go]. destruct (Py_UNICODE_ISSPACE x) eqn:E.
  - destruct (IH true) as (H1 & H2). destruct b.
    + split; [exact H1|intros _; now apply H2].
    + split; [|discriminate]. rewrite has_space_run_cons, H1, H2 by reflexivity.
      now rewrite andb_false_r.
  - destruct (IH false) as (H1 & _). split.
    + rewrite has_space_run_cons, H1, E. reflexivity.
    + intros _. cbn [space_at_start]. exact E.
Qed.

Lemma collapse_go_only_space (b : bool) (s : str) :
  forallb (fun c => not_space c || (c =? 32)%N) (collapse_go b s) = true.
Proof.
  revert b; induction s as [|x s IH]; intros b; [reflexivity|].
  cbn [collapse_go]. destruct (Py_UNICODE_ISSPACE x) eqn:E.
  - destruct b; [apply IH|]. cbn [forallb]. rewrite IH. reflexivity.
  - cbn [forallb]. unfold not_space at 1. rewrite E, IH. reflexivity.
Qed.

Lemma collapse_go_fixed (b : bool) (s : str) :
  forallb (fun c => not_space c || (c =? 32)%N) s = true ->
  has_space_run s = false ->
  (b = true -> space_at_start s = false) ->
  collapse_go b s = s.
Proof.
  revert b; induction s as [|x s IH]; intros b Ho Hr Hs; [reflexivity|].
  cbn [forallb] in Ho. apply andb_true_iff in Ho as (Hx & Ho).
  rewrite has_space_run_cons in Hr. apply orb_false_iff in Hr as (Hr1 & Hr2).
  cbn [collapse_go]. destruct (Py_UNICODE_ISSPACE x) eqn:E.
  - destruct b; [cbn [space_at_start] in Hs; rewrite Hs in E by reflexivity;
                 discriminate E|].
    unfold not_space in Hx. rewrite E in Hx. cbn [negb orb] in Hx.
    apply N.eqb_eq in Hx. subst x. f_equal.
    apply IH; [exact Ho|exact Hr2|]. intros _. exact Hr1.
  - f_equal. apply IH; [exact Ho|exact Hr2|discriminate].
Qed.

(** ** More on [strip] *)

Lemma dropWhile_split A (f : A -> bool) (l : list A) :
  exists pre, l = pre ++ dropWhile f l /\ forallb f pre = true.
Proof.
  induction l as [|x l (pre & IH & Hp)]; simpl; [now exists []|].
  destruct (f x) eqn:E; [|now exists []].
  exists (x :: pre); simpl. rewrite E, Hp. split; [congruence|reflexivity].
Qed.

(** [strip] takes whitespace off both ends and nothing else. *)
Lemma str_strip_infix (s : str) :
  exists pre post,
    s = pre ++ str_strip s ++ post
    /\ forallb Py_UNICODE_ISSPACE pre = true
    /\ forallb Py_UNICODE_ISSPACE post = true.
Proof.
  unfold str_strip.
  destruct (dropWhile_split Py_UNICODE_ISSPACE s) as (pre & E1 & H1).
  set (t := dropWhile Py_UNICODE_ISSPACE s) in *.
  destruct (dropWhile_split Py_UNICODE_ISSPACE (rev t)) as (q & E2 & H2).
  set (u := dropWhile Py_UNICODE_ISSPACE (rev t)) in *.
  exists pre, (rev q). split; [|split; [exact H1|]].
  - rewrite E1 at 1. f_equal.
    now rewrite <- rev_app_distr, <- E2, rev_involutive.
  - rewrite forallb_forall in *. intros c Hc. apply H2. now apply in_rev.
Qed.

Lemma filter_spaces_nil (h : char -> bool) (l : str) :
  forallb Py_UNICODE_ISSPACE l = true ->
  filter (fun c => h c && not_space c) l = [].
Proof.
  induction l as [|x l IH]; intros H; [reflexivity|].
  cbn [forallb] in H. apply andb_true_iff in H as (Hx & Hl).
  cbn [filter]. unfold not_space at 1. rewrite Hx, andb_false_r. now apply IH.
Qed.

Lemma str_strip_filter (h : char -> bool) (s : str) :
  filter (fun c => h c && not_space c) (str_strip s)
  = filter (fun c => h c && not_space c) s.
Proof.
  destruct (str_strip_infix s) as (pre & post & E & H1 & H2).
  rewrite E at 2. rewrite !filter_app.
  rewrite (filter_spaces_nil h pre H1), (filter_spaces_nil h post H2).
  now rewrite app_nil_r.
Qed.

Lemma str_strip_length (s : str) : length (str_strip s) <= length s.
Proof.
  destruct (str_strip_infix s) as (pre & post & E & _).
  rewrite E at 2. rewrite !length_app. lia.
Qed.

Lemma str_strip_no_run (s : str) :
  has_space_run s = false -> has_space_run (str_strip s) = false.
Proof.
  destruct (str_strip_infix s) as (pre & post & E & _). intros H.
  rewrite E in H. apply has_space_run_app in H as (_ & H).
  now apply has_space_run_app in H as (H & _).
Qed.

(** ** The normalizer, once more *)

Lemma filter_all A (f : A -> bool) (l : list A) :
  forallb f l = true -> filter f l = l.
Proof.
  induction l as [|x l IH]; intros H; [reflexivity|].
  cbn [forallb] in H. apply andb_true_iff in H as (Hx & Hl).
  cbn [filter]. rewrite Hx. now rewrite IH.
Qed.

Lemma filter_twice A (f g : A -> bool) (l : list A) :
  filter g (filter f l) = filter (fun x => f x && g x) l.
Proof.
  induction l as [|x l IH]; [reflexivity|].
  cbn [filter]. destruct (f x); cbn [filter andb]; [|exact IH].
  destruct (g x); now rewrite IH.
Qed.

Lemma filter_length_le A (f : A -> bool) (l : list A) :
  length (filter f l) <= length l.
Proof.
  induction l as [|x l IH]; [reflexivity|].
  cbn [filter]. destruct (f x); cbn [length]; lia.
Qed.

Section NormalForm.
Context {U : UnicodeData}.

Lemma clean_text_collapse (text : str) :
  clean_text text
  = str_strip (filter kept_by_clean_text (collapse_spaces text)).
Proof. now rewrite clean_text_eq, re_sub_spaces_eq. Qed.

Lemma collapse_go_kept (b : bool) (s : str) :
  forallb kept_by_clean_text s = true ->
  forallb kept_by_clean_text (collapse_go b s) = true.
Proof.
  revert b; induction s as [|x s IH]; intros b H; [reflexivity|].
  cbn [forallb] in H. apply andb_true_iff in H as (Hx & Hs).
  cbn [collapse_go]. destruct (Py_UNICODE_ISSPACE x).
  - destruct b; [now apply IH|]. cbn [forallb]. now rewrite IH.
  - cbn [forallb]. now rewrite Hx, IH.
Qed.

Lemma forallb_str_strip (f : char -> bool) (s : str) :
  forallb f s = true -> forallb f (str_strip s) = true.
Proof.
  intros H.
  assert (F : Forall (fun c => f c = true) (str_strip s)).
  { apply Forall_str_strip, Forall_forall.
    rewrite forallb_forall in H. exact H. }
  apply forallb_forall. rewrite Forall_forall in F. exact F.
Qed.

Lemma clean_text_keeps_visible_characters_aux (text : str) :
  filter not_space (clean_text text)
  = filter (fun c => kept_by_clean_text c && not_space c) text
  /\ length (clean_text text) <= length text.
Proof.
  rewrite clean_text_collapse. split.
  - rewrite <- (filter_ext (fun c => true && not_space c) not_space)
      by reflexivity.
    rewrite (str_strip_filter (fun _ => true)).
    rewrite (filter_ext (fun c => true && not_space c) not_space)
      by reflexivity.
    rewrite filter_twice. apply collapse_go_filter.
  - eapply Nat.le_trans; [apply str_strip_length|].
    eapply Nat.le_trans; [apply filter_length_le|].
    apply collapse_go_length.
Qed.

(** X1.  Cleaning changes whitespace only and drops the characters outside
    the kept set: the characters of the cleaned text that are not whitespace
    are the kept characters of the text that are not whitespace, in the same
    order, and the cleaned text is never longer than the text. *)
Theorem clean_text_keeps_visible_characters (text : str) :
  filter not_space (clean_text text)
  = filter (fun c => kept_by_clean_text c && not_space c) text
  /\ length (clean_text text) <= length text.
Proof. apply clean_text_keeps_visible_characters_aux. Qed.

(** X2.  The cleaned text is empty exactly when every character of the text
    is whitespace or outside the kept set; in particular for the empty text
    and for a text of whitespace only. *)
Theorem clean_text_empty_iff (text : str) :
  clean_text text = []
  <-> forallb (fun c => negb (kept_by_clean_text c) || Py_UNICODE_ISSPACE c)
              text = true.
Proof.
  pose proof (proj1 (clean_text_keeps_visible_characters_aux text)) as E.
  split; intros H.
  - rewrite H in E. cbn [filter] in E. symmetry in E.
    apply forallb_forall. intros c Hc.
    destruct (kept_by_clean_text c && not_space c) eqn:Ec.
    + assert (Hin : In c (filter (fun c => kept_by_clean_text c && not_space c)
                                 text)) by (apply filter_In; now split).
      rewrite E in Hin. destruct Hin.
    + unfold not_space in Ec.
      destruct (kept_by_clean_text c), (Py_UNICODE_ISSPACE c);
        try reflexivity; discriminate Ec.
  - destruct (clean_text text) as [|x r] eqn:Ex; [reflexivity|exfalso].
    assert (Hs : space_at_start (clean_text text) = false)
      by (unfold clean_text; apply str_strip_start).
    rewrite Ex in Hs. cbn [space_at_start] in Hs.
    assert (Hin : In x (filter (fun c => kept_by_clean_text c && not_space c)
                               text)).
    { rewrite <- E. cbn [filter]. unfold not_space at 1. rewrite Hs. now left. }
    apply filter_In in Hin as (Hin & Hx).
    rewrite forallb_forall in H. specialize (H x Hin).
    unfold not_space in Hx.
    destruct (kept_by_clean_text x), (Py_UNICODE_ISSPACE x); discriminate.
Qed.

End NormalForm.

Section FixedPoint.
Context {U : UnicodeData}.

Lemma clean_text_of_normal (text : str) :
  normal_text text -> clean_text text = text.
Proof.
  intros (Hk & Ho & Hr & Hs & He). rewrite clean_text_collapse.
  unfold collapse_spaces.
  rewrite collapse_go_fixed by (assumption || discriminate).
  rewrite filter_all by exact Hk. now apply str_strip_fixed.
Qed.

Lemma clean_text_normal_when_kept (text : str) :
  forallb kept_by_clean_text text = true -> normal_text (clean_text text).
Proof.
  intros Hk. rewrite clean_text_collapse. unfold collapse_spaces.
  rewrite filter_all by now apply collapse_go_kept.
  repeat split.
  - now apply forallb_str_strip, collapse_go_kept.
  - apply forallb_str_strip, collapse_go_only_space.
  - apply str_strip_no_run, collapse_go_no_run.
  - apply str_strip_start.
  - apply str_strip_end.
Qed.

Lemma clean_text_forallb_kept (text : str) :
  forallb kept_by_clean_text (clean_text text) = true.
Proof.
  apply forallb_forall. pose proof (clean_text_kept text) as F.
  rewrite Forall_forall in F. exact F.
Qed.

(** X3.  A text that is already in normal form (kept characters only, no
    whitespace but single spaces, none at either end) is left as it is. *)
Theorem clean_text_fixes_normal_text (text : str) :
  normal_text text -> clean_text text = text.
Proof. apply clean_text_of_normal. Qed.

(** X4.  On a text in which every character is one of the kept ones (so that
    the second substitution has nothing to drop) one pass gives the normal
    form, and [clean_text] is idempotent. *)
Theorem clean_text_idempotent_without_specials (text : str) :
  forallb kept_by_clean_text text = true ->
  normal_text (clean_text text)
  /\ clean_text (clean_text text) = clean_text text.
Proof.
  intros Hk. pose proof (clean_text_normal_when_kept text Hk) as Hn.
  split; [exact Hn|now apply clean_text_of_normal].
Qed.

(** X5.  Whatever the text, the second pass gives the normal form: a third
    pass changes nothing. *)
Theorem clean_text_second_pass_is_normal (text : str) :
  normal_text (clean_text (clean_text text))
  /\ clean_text (clean_text (clean_text text))
     = clean_text (clean_text text).
Proof.
  pose proof (clean_text_normal_when_kept (clean_text text)
                (clean_text_forallb_kept text)) as Hn.
  split; [exact Hn|now apply clean_text_of_normal].
Qed.

End FixedPoint.

Lemma clean_text_fixes_normal_text_witness :
  normal_text (U := ascii_tables) (py "Pay within 30 days.")
  /\ clean_text (U := ascii_tables) (py "Pay within 30 days.")
     = py "Pay within 30 days.".
Proof.
  assert (H : normal_text (U := ascii_tables) (py "Pay within 30 days."))
    by (repeat split; reflexivity).
  split; [exact H|].
  exact (@clean_text_fixes_normal_text ascii_tables (py "Pay within 30 days.") H).
Defined.

Lemma clean_text_idempotent_without_specials_witness :
  forallb (kept_by_clean_text (U := ascii_tables)) (py " a   b_c ") = true
  /\ normal_text (U := ascii_tables) (clean_text (U := ascii_tables) (py " a   b_c "))
  /\ clean_text (U := ascii_tables) (clean_text (U := ascii_tables) (py " a   b_c "))
     = clean_text (U := ascii_tables) (py " a   b_c ").
Proof.
  assert (H : forallb (kept_by_clean_text (U := ascii_tables)) (py " a   b_c ")
              = true) by reflexivity.
  split; [exact H|].
  exact (@clean_text_idempotent_without_specials ascii_tables (py " a   b_c ") H).
Defined.

(* ================================================================= *)
(** ** Key terms *)

Lemma str_eqb_eq (a b : str) : str_eqb a b = true <-> a = b.
Proof.
  revert b; induction a as [|x a IH]; intros [|y b]; simpl;
    try (split; [discriminate|discriminate]); [tauto|].
  rewrite andb_true_iff, N.eqb_eq, IH. split.
  - intros (-> & ->); reflexivity.
  - intros E; injection E as -> ->; now split.
Qed.

Lemma py_set_In (x : str) (l : list str) : In x (py_set l) <-> In x l.
Proof.
  induction l as [|y l IH]; [reflexivity|].
  cbn [py_set]. destruct (existsb (str_eqb y) l) eqn:E.
  - rewrite IH. split; [now right|]. intros [<-|H]; [|exact H].
    apply existsb_exists in E as (z & Hz & Ez). apply str_eqb_eq in Ez.
    now subst.
  - cbn [In]. now rewrite IH.
Qed.

Lemma py_set_NoDup (l : list str) : NoDup (py_set l).
Proof.
  induction l as [|y l IH]; [constructor|].
  cbn [py_set]. destruct (existsb (str_eqb y) l) eqn:E; [exact IH|].
  constructor; [|exact IH]. rewrite py_set_In. intros H.
  assert (existsb (str_eqb y) l = true)
    by (apply existsb_exists; exists y; split; [exact H|now apply str_eqb_eq]).
  congruence.
Qed.

Lemma extend_loop A B (f : A -> list B) (l : list A) (out : list B) :
  fold_left (fun out x => out ++ f x) l out = out ++ flat_map f l.
Proof.
  revert out; induction l as [|x l IH]; intros out; simpl.
  - now rewrite app_nil_r.
  - now rewrite IH, app_assoc.
Qed.

Lemma str_contains_infix (m a b : str) : str_contains m (a ++ m ++ b) = true.
Proof.
  induction a as [|x a IH].
  - destruct (m ++ b) eqn:E; cbn [app str_contains]; rewrite <- ?E;
      now rewrite str_prefix_self.
  - cbn [app str_contains]. now rewrite IH, orb_true_r.
Qed.

Lemma str_contains_cons (m : str) (x : char) (s : str) :
  str_contains m s = true -> str_contains m (x :: s) = true.
Proof. intros H. cbn [str_contains]. now rewrite H, orb_true_r. Qed.

Section KeyTerms.
Context {U : UnicodeData}.

(** What follows a star is reached on a suffix of the text. *)
Lemma star_loop_suffix A
      (step : option char -> str -> (option char -> str -> option A) -> option A)
      (k : option char -> str -> option A) n p s v :
  (forall p s k v, step p s k = Some v ->
                   exists p' s', k p' s' = Some v /\ length s' <= length s) ->
  star_loop step k n p s = Some v ->
  exists p' s', k p' s' = Some v /\ length s' <= length s.
Proof.
  intros Hstep. revert p s; induction n as [|n IH]; intros p s H.
  - now exists p, s.
  - cbn [star_loop] in H.
    match type of H with match ?t with _ => _ end = _ =>
      destruct t as [w|] eqn:E end; [|now exists p, s].
    injection H as ->.
    apply Hstep in E as (p1 & s1 & E & L1).
    destruct (length s1 <? length s) eqn:El; [|discriminate E].
    apply IH in E as (p2 & s2 & E & L2).
    exists p2, s2. split; [exact E|lia].
Qed.

(** A match of [r] holds at least [min_len r] characters. *)
Lemma mre_min_len A ic (r : regex) (k : option char -> str -> option A) p s v :
  mre ic r p s k = Some v ->
  exists p' s', k p' s' = Some v /\ length s' + min_len r <= length s.
Proof.
  revert k p s v; induction r; intros k p s v H; cbn [mre min_len] in *.
  - destruct s as [|x s]; [discriminate H|].
    destruct (set_match ic neg items x); [|discriminate H].
    exists (Some x), s. split; [exact H|simpl; lia].
  - destruct (at_boundary p s); [|discriminate H].
    exists p, s. split; [exact H|lia].
  - destruct p; [discriminate H|]. exists None, s. split; [exact H|lia].
  - exists p, s. split; [exact H|lia].
  - apply IHr1 in H as (p1 & s1 & H & L1).
    apply IHr2 in H as (p2 & s2 & H & L2).
    exists p2, s2. split; [exact H|lia].
  - apply star_loop_suffix in H.
    + destruct H as (p' & s' & H & L). exists p', s'. split; [exact H|lia].
    + intros p0 s0 k0 v0 H0. apply IHr in H0 as (p' & s' & H0 & L).
      exists p', s'. split; [exact H0|lia].
  - destruct (mre ic r p s k) as [w|] eqn:E.
    + injection H as ->. apply IHr in E as (p' & s' & E & L).
      exists p', s'. split; [exact E|lia].
    + exists p, s. split; [exact H|lia].
Qed.

Lemma match_here_min_len ic (r : regex) p s ne n :
  match_here ic r p s ne = Some n -> min_len r <= n <= length s.
Proof.
  unfold match_here. intros H.
  apply mre_min_len in H as (p' & s' & H & L). cbv beta zeta in H.
  destruct (ne && (length s - length s' =? 0)); [discriminate H|].
  injection H as <-. lia.
Qed.

(** What the scan reports as a match is a piece of the text, and holds a
    character when the pattern needs one. *)
Lemma scan_hits ic (r : regex) (s : str) :
  1 <= min_len r ->
  forall p skip,
    Forall (fun pc => match pc with
                      | Hit m => m <> [] /\ str_contains m s = true
                      | Keep _ => True
                      end)
           (scan ic r p s skip).
Proof.
  intros Hr. induction s as [|x s IH]; intros p skip.
  - destruct skip; cbn [scan]; [|constructor].
    destruct (match_here ic r p [] false) as [n|] eqn:E; [|constructor].
    apply match_here_min_len in E. simpl in E. lia.
  - assert (Hrest : forall p' skip',
               Forall (fun pc => match pc with
                                 | Hit m => m <> [] /\ str_contains m (x :: s) = true
                                 | Keep _ => True
                                 end)
                      (scan ic r p' s skip')).
    { intros p' skip'. eapply Forall_impl; [|apply IH].
      intros [c|m]; [trivial|]. intros (H1 & H2).
      split; [exact H1|now apply str_contains_cons]. }
    destruct skip as [|skip]; cbn [scan]; [|apply Hrest].
    destruct (match_here ic r p (x :: s) false) as [[|n]|] eqn:E.
    + apply match_here_min_len in E. lia.
    + constructor; [|apply Hrest]. split; [discriminate|].
      rewrite <- (firstn_skipn (S n) (x :: s)) at 2.
      apply (str_contains_infix (firstn (S n) (x :: s)) []
               (skipn (S n) (x :: s))).
    + constructor; [exact I|apply Hrest].
Qed.

Lemma re_findall_pieces ic (r : regex) (s : str) :
  1 <= min_len r ->
  Forall (fun m => m <> [] /\ str_contains m s = true) (re_findall ic r s).
Proof.
  intros Hr. unfold re_findall.
  pose proof (@scan_hits ic r s Hr None 0) as H.
  induction H as [|pc l Hpc Hl IH]; cbn [flat_map]; [constructor|].
  destruct pc as [c|m]; [exact IH|]. cbn [app]. now constructor.
Qed.

Lemma legal_patterns_consume :
  forallb (fun r => 1 <=? min_len r) legal_patterns = true.
Proof. reflexivity. Qed.

Lemma extract_key_terms_In (text term : str) :
  In term (extract_key_terms text)
  <-> exists pattern,
        In pattern legal_patterns /\ In term (re_findall true pattern text).
Proof.
  unfold extract_key_terms. rewrite py_set_In, extend_loop, app_nil_l.
  rewrite in_flat_map. reflexivity.
Qed.

(** X6.  The key terms are the pieces of the text that the patterns match,
    each listed once: the list has no duplicates, and a string is in it
    exactly when [re.findall] reports it for one of the patterns. *)
Theorem extract_key_terms_is_a_set (text : str) :
  NoDup (extract_key_terms text)
  /\ forall term,
       In term (extract_key_terms text)
       <-> exists pattern,
             In pattern legal_patterns
             /\ In term (re_findall true pattern text).
Proof.
  split; [apply py_set_NoDup|]. intros term. apply extract_key_terms_In.
Qed.

(** X7.  Every key term is a piece of the text as it stands there: it is not
    empty and it occurs in the text (same characters, same case).  So a text
    has no key term that it does not contain, and the empty text has none. *)
Theorem extract_key_terms_occur_in_text (text : str) :
  Forall (fun term => term <> [] /\ str_contains term text = true)
         (extract_key_terms text)
  /\ extract_key_terms [] = [].
Proof.
  split; [|reflexivity].
  apply Forall_forall. intros term H.
  apply extract_key_terms_In in H as (pattern & Hp & Hin).
  assert (Hr : 1 <= min_len pattern).
  { pose proof legal_patterns_consume as F. rewrite forallb_forall in F.
    apply Nat.leb_le. now apply F. }
  pose proof (@re_findall_pieces true pattern text Hr) as F.
  rewrite Forall_forall in F. now apply F.
Qed.

End KeyTerms.

(* ================================================================= *)
(** ** Sentences *)

Lemma split_go_pieces (c : char) (s cur : str) :
  ~ In c cur ->
  Forall (fun piece => ~ In c piece) (split_go [c] s 0 cur)
  /\ length (split_go [c] s 0 cur) = S (count_occ N.eq_dec s c).
Proof.
  revert cur; induction s as [|x s IH]; intros cur Hc.
  - split; [|reflexivity]. constructor; [|constructor].
    intros H. apply Hc. now apply in_rev.
  - cbn [split_go str_prefix length Nat.sub count_occ].
    destruct (N.eqb_spec c x) as [->|Hne].
    + cbn [andb]. destruct (N.eq_dec x x) as [_|F]; [|congruence].
      destruct (IH [] (fun H => H)) as (H1 & H2). split.
      * constructor; [|exact H1]. intros H. apply Hc. now apply in_rev.
      * cbn [length]. now rewrite H2.
    + cbn [andb]. destruct (N.eq_dec x c) as [E|_]; [congruence|].
      apply IH. intros [E|H]; [congruence|now apply Hc].
Qed.

Section Sentences.
Context {U : UnicodeData}.

(** X8.  The sentences the extractors work on: none is empty, none holds a
    period, none starts or ends with whitespace, and there are at most as
    many as the text has periods, plus one. *)
Theorem sentences_of_shape (text : str) :
  Forall (fun s => s <> []
                   /\ ~ In (ch ".") s
                   /\ space_at_start s = false
                   /\ space_at_end s = false)
         (sentences_of text)
  /\ length (sentences_of text) <= S (count_occ N.eq_dec text (ch ".")).
Proof.
  unfold sentences_of.
  destruct (@split_go_pieces (ch ".") text [] (fun H => H)) as (Hp & Hl).
  change (split_go [ch "."] text 0 []) with (str_split (py ".") text) in *.
  split.
  - apply Forall_forall. intros s Hs.
    apply in_map_iff in Hs as (piece & <- & Hin).
    apply filter_In in Hin as (Hin & Hne).
    rewrite Forall_forall in Hp. specialize (Hp piece Hin).
    split; [now destruct (str_strip piece)|].
    split; [|split; [apply str_strip_start|apply str_strip_end]].
    intros H.
    assert (F : Forall (fun c => c <> ch ".") (str_strip piece)).
    { apply Forall_str_strip, Forall_forall. intros c Hc ->. now apply Hp. }
    rewrite Forall_forall in F. now apply (F _ H).
  - rewrite length_map, <- Hl. apply filter_length_le.
Qed.

(** X9.  The structure analysis and the readability scorer count the same
    sentences: neither raises; with no sentence the structure reports 0
    sentences and the average 0 (an int, no division is made) and the scorer
    the sentinel; otherwise the sentence count of the one is the total of the
    other. *)
Theorem sentence_counts_agree (text : str) :
  exists structure readability,
    analyze_document_structure text = Ok structure
    /\ calculate_readability text = Ok readability
    /\ dict_get "sentence_count" structure
       = Some (VInt (len (sentences_of text)))
    /\ match sentences_of text with
       | [] =>
           dict_get "avg_sentence_length" structure = Some (VInt 0)
           /\ readability
              = [ ("score"%string, VStr (py "N/A"));
                  ("level"%string, VStr (py "Unable to calculate")) ]
       | _ :: _ =>
           dict_get "total_sentences" readability
           = Some (VInt (len (sentences_of text)))
           /\ dict_get "total_words" readability
              = Some (VInt (len (str_words text)))
       end.
Proof.
  unfold analyze_document_structure, calculate_readability.
  rewrite (append_loop (fun line => re_match false re_section (str_strip line))
                       str_strip).
  assert (El : len (sentences_of text)
               = len (filter (fun s => nonempty (str_strip s))
                             (str_split (py ".") text)))
    by (unfold sentences_of, len; now rewrite length_map).
  assert (En : sentences_of text = [] <->
               filter (fun s => nonempty (str_strip s))
                      (str_split (py ".") text) = []).
  { unfold sentences_of. split; intros H.
    - now apply map_eq_nil in H.
    - now rewrite H. }
  destruct (sentences_of text) as [|s0 rest] eqn:Es.
  - rewrite (proj1 En eq_refl). cbn [nonempty bind negb].
    eexists; eexists. repeat split; reflexivity.
  - destruct (filter (fun s => nonempty (str_strip s))
                     (str_split (py ".") text)) as [|q0 qs] eqn:Eq.
    + assert (s0 :: rest = []) by now apply En. discriminate.
    + cbn [nonempty negb].
      rewrite !py_truediv_pos by apply len_pos_of_cons. cbn [bind].
      destruct (Qltb _ (15 # 1)); [|destruct (Qltb _ (25 # 1))];
        (eexists; eexists; repeat split; try reflexivity;
         cbn [dict_get String.eqb Ascii.eqb Bool.eqb]; now rewrite El).
Qed.

End Sentences.

(* ================================================================= *)
(** ** More on the report *)

Lemma split_go_absent_sep (c : char) (sep s cur : str) :
  ~ In c s -> split_go (c :: sep) s 0 cur = [rev cur ++ s].
Proof.
  revert cur; induction s as [|x s IH]; intros cur H.
  - cbn [split_go]. now rewrite app_nil_r.
  - cbn [split_go str_prefix].
    destruct (N.eqb_spec c x) as [->|Hne]; [exfalso; apply H; now left|].
    cbn [andb]. rewrite IH by (intros Hin; apply H; now right).
    cbn [rev]. now rewrite <- app_assoc.
Qed.

Lemma firstn_app_exact A (a b : list A) (n : nat) :
  length a = n -> firstn n (a ++ b) = a.
Proof.
  intros <-. rewrite firstn_app, Nat.sub_diag, firstn_O, app_nil_r.
  apply firstn_all.
Qed.

Section ReportFields.
Context {U : UnicodeData}.

Lemma analyze_document_structure_eq (text : str) :
  exists avg,
    analyze_document_structure text
    = Ok [ ("sections"%string, VStrs (numbered_lines text));
           ("sentence_count"%string, VInt (len (sentences_of text)));
           ("paragraph_count"%string,
            VInt (len (filter (fun p => nonempty (str_strip p))
                              (str_split (newline ++ newline) text))));
           ("avg_sentence_length"%string, avg) ].
Proof.
  unfold analyze_document_structure.
  rewrite (append_loop (fun line => re_match false re_section (str_strip line))
                       str_strip).
  rewrite app_nil_l. fold (numbered_lines text).
  replace (len (map str_strip
                    (filter (fun p => nonempty (str_strip p))
                            (str_split (newline ++ newline) text))))
    with (len (filter (fun p => nonempty (str_strip p))
                      (str_split (newline ++ newline) text)))
    by (unfold len; now rewrite length_map).
  destruct (sentences_of text) as [|s0 rest] eqn:E.
  - cbn [nonempty bind]. eauto.
  - cbn [nonempty]. rewrite py_truediv_pos by apply len_pos_of_cons.
    cbn [bind]. eauto.
Qed.

Lemma paragraphs_of_cleaned (text : str) :
  len (filter (fun p => nonempty (str_strip p))
              (str_split (newline ++ newline) (clean_text text)))
  = match clean_text text with [] => 0%Z | _ :: _ => 1%Z end.
Proof.
  unfold str_split, newline. cbn [app].
  rewrite split_go_absent_sep by apply clean_text_no_newline.
  cbn [rev app filter]. rewrite clean_text_stripped.
  destruct (clean_text text); reflexivity.
Qed.

(** X10.  The pipeline counts paragraphs in the cleaned text, which holds no
    newline: the paragraph count of a report is 1, or 0 when nothing is left
    of the text after cleaning. *)
Theorem paragraph_count_of_report (fs : filesystem) (now file_path : str) :
  let text := read_text_file fs file_path in
  let cleaned := clean_text text in
  match text with
  | [] =>
      analyze_document fs now file_path
      = Ok [ ("error"%string, VStr (py "Could not read the document")) ]
  | _ :: _ =>
      exists report structure,
        analyze_document fs now file_path = Ok report
        /\ dict_get "structure" report = Some (VDict structure)
        /\ dict_get "paragraph_count" structure
           = Some (VInt (match cleaned with [] => 0 | _ :: _ => 1 end))
  end.
Proof.
  cbv zeta.
  pose proof (analyze_document_report fs now file_path) as H. cbv zeta in H.
  destruct (read_text_file fs file_path) as [|c t] eqn:E.
  - unfold analyze_document. now rewrite E.
  - destruct H as (structure & readability & Hs & _ & Hrep); [discriminate|].
    destruct (analyze_document_structure_eq (clean_text (c :: t))) as (avg & Hs').
    rewrite Hs' in Hs. injection Hs as <-.
    eexists; eexists. split; [exact Hrep|]. split; [reflexivity|].
    cbn [dict_get String.eqb Ascii.eqb Bool.eqb].
    now rewrite paragraphs_of_cleaned.
Qed.

(** X11.  The preview of a report is the cleaned text when that has at most
    300 characters, and otherwise its first 300 characters followed by "...":
    it is never longer than 303 characters and it starts as the cleaned text
    does. *)
Theorem preview_of_report (fs : filesystem) (now file_path : str) :
  let text := read_text_file fs file_path in
  let cleaned := clean_text text in
  match text with
  | [] =>
      analyze_document fs now file_path
      = Ok [ ("error"%string, VStr (py "Could not read the document")) ]
  | _ :: _ =>
      exists report preview,
        analyze_document fs now file_path = Ok report
        /\ dict_get "original_preview" report = Some (VStr preview)
        /\ length preview <= 303
        /\ firstn 300 preview = firstn 300 cleaned
        /\ (length cleaned <= 300 -> preview = cleaned)
        /\ (300 < length cleaned ->
            preview = firstn 300 cleaned ++ py "..."
            /\ length preview = 303)
  end.
Proof.
  cbv zeta.
  pose proof (analyze_document_report fs now file_path) as H. cbv zeta in H.
  destruct (read_text_file fs file_path) as [|c t] eqn:E.
  - unfold analyze_document. now rewrite E.
  - destruct H as (structure & readability & _ & _ & Hrep); [discriminate|].
    set (cleaned := clean_text (c :: t)) in *.
    eexists; eexists. split; [exact Hrep|]. split; [reflexivity|].
    destruct (300 <? length cleaned) eqn:El.
    + apply Nat.ltb_lt in El.
      assert (L : length (firstn 300 cleaned) = 300)
        by (rewrite length_firstn; lia).
      split; [rewrite length_app, L; simpl; lia|].
      split; [now apply firstn_app_exact|].
      split; [intros Hl; lia|].
      intros _. split; [reflexivity|]. rewrite length_app, L. reflexivity.
    + apply Nat.ltb_ge in El.
      split; [lia|]. split; [reflexivity|]. split; [reflexivity|].
      intros Hl. lia.
Qed.

Lemma clean_text_of_whitespace (text : str) :
  forallb Py_UNICODE_ISSPACE text = true -> clean_text text = [].
Proof.
  intros H. rewrite clean_text_collapse.
  assert (F : forall b, forallb Py_UNICODE_ISSPACE (collapse_go b text) = true).
  { clear - H. induction text as [|x s IH]; intros b; [reflexivity|].
    cbn [forallb] in H. apply andb_true_iff in H as (Hx & Hs).
    cbn [collapse_go]. rewrite Hx. destruct b; [now apply IH|].
    cbn [forallb]. now rewrite IH. }
  specialize (F false). fold (collapse_spaces text) in F.
  set (u := filter kept_by_clean_text (collapse_spaces text)).
  assert (G : forallb Py_UNICODE_ISSPACE u = true).
  { apply forallb_forall. intros c Hc. apply filter_In in Hc as (Hc & _).
    rewrite forallb_forall in F. now apply F. }
  assert (D : forall l, forallb Py_UNICODE_ISSPACE l = true ->
                        dropWhile Py_UNICODE_ISSPACE l = []).
  { induction l as [|x l IH]; intros Hl; [reflexivity|].
    cbn [forallb] in Hl. apply andb_true_iff in Hl as (Hx & Hl).
    cbn [dropWhile]. rewrite Hx. now apply IH. }
  unfold str_strip. now rewrite (D u G).
Qed.

(** X12.  A file that holds whitespace only is not an error: its report is
    the full report with every field empty or zero, the summary ".", and the
    readability sentinel. *)
Theorem analyze_document_of_blank_file (fs : filesystem) (now file_path : str) :
  read_text_file fs file_path <> [] ->
  forallb Py_UNICODE_ISSPACE (read_text_file fs file_path) = true ->
  analyze_document fs now file_path
  = Ok [ ("document_info"%string,
          VDict [ ("file_path"%string, VStr file_path);
                  ("word_count"%string, VInt 0);
                  ("analysis_date"%string, VStr now) ]);
         ("key_terms"%string, VStrs []);
         ("structure"%string,
          VDict [ ("sections"%string, VStrs []);
                  ("sentence_count"%string, VInt 0);
                  ("paragraph_count"%string, VInt 0);
                  ("avg_sentence_length"%string, VInt 0) ]);
         ("plain_language_summary"%string, VStr (py "."));
         ("key_obligations"%string, VStrs []);
         ("risks_and_warnings"%string, VStrs []);
         ("readability"%string,
          VDict [ ("score"%string, VStr (py "N/A"));
                  ("level"%string, VStr (py "Unable to calculate")) ]);
         ("original_preview"%string, VStr []) ].
Proof.
  intros Hne Hws. unfold analyze_document.
  destruct (read_text_file fs file_path) as [|c t] eqn:E; [congruence|].
  cbn [nonempty negb]. rewrite (clean_text_of_whitespace (c :: t) Hws).
  reflexivity.
Qed.

End ReportFields.

Lemma analyze_document_of_blank_file_witness :
  let fs : filesystem := fun _ => Some [32; 10; 9]%N in
  read_text_file fs (py "blank.txt") <> []
  /\ forallb Py_UNICODE_ISSPACE (read_text_file fs (py "blank.txt")) = true
  /\ exists report,
       analyze_document (U := ascii_tables) fs (py "2026-01-01 00:00:00")
                        (py "blank.txt") = Ok report
       /\ dict_get "plain_language_summary" report = Some (VStr (py ".")).
Proof.
  intros fs.
  assert (H1 : read_text_file fs (py "blank.txt") <> []) by discriminate.
  assert (H2 : forallb Py_UNICODE_ISSPACE (read_text_file fs (py "blank.txt"))
               = true) by reflexivity.
  split; [exact H1|]. split; [exact H2|].
  eexists. split.
  - exact (@analyze_document_of_blank_file ascii_tables fs
             (py "2026-01-01 00:00:00") (py "blank.txt") H1 H2).
  - reflexivity.
Defined.

(* ================================================================= *)
(** ** The extractors at the edges *)

Lemma subseq_map A B (f : A -> B) (a b : list A) :
  subseq a b -> subseq (map f a) (map f b).
Proof. induction 1; cbn [map]; constructor; auto. Qed.

Lemma subseq_same A (l : list A) : subseq l l.
Proof. induction l; constructor; auto. Qed.

Lemma subseq_filter_and A (f g : A -> bool) (l : list A) :
  subseq (filter (fun x => f x && g x) l) (filter f l).
Proof.
  induction l as [|x l IH]; cbn [filter]; [constructor|].
  destruct (f x), (g x); cbn [andb]; try constructor; auto.
Qed.

Lemma ascii_lower_upper (c : char) : ascii_lower (ascii_upper c) = ascii_lower c.
Proof.
  unfold ascii_lower, ascii_upper, ascii_isupper, ascii_islower, in_range.
  destruct (N.leb_spec 97 c), (N.leb_spec c 122); cbn [andb];
    repeat match goal with
           | |- context [(?a <=? ?b)%N] => destruct (N.leb_spec a b)
           end; cbn [andb]; lia.
Qed.

Lemma is_ascii_upper (c : char) : is_ascii (ascii_upper c) = is_ascii c.
Proof.
  unfold is_ascii, ascii_upper, ascii_islower, in_range.
  destruct (N.leb_spec 97 c), (N.leb_spec c 122); cbn [andb]; try reflexivity.
  destruct (N.ltb_spec (c - 32) 128), (N.ltb_spec c 128); try reflexivity; lia.
Qed.

Section Edges.
Context {U : UnicodeData}.

Lemma long_sentences_subseq (text : str) :
  subseq (long_sentences text) (sentences_of text).
Proof.
  unfold long_sentences, sentences_of.
  apply subseq_map, subseq_filter_and.
Qed.

Lemma summary_selection_subseq (text : str) :
  subseq (summary_selection text) (long_sentences text).
Proof.
  unfold summary_selection. destruct (long_sentences text) as [|first rest].
  - constructor.
  - constructor. eapply subseq_trans; [apply subseq_firstn|apply subseq_filter].
Qed.

(** X13.  A text without a sentence (periods and whitespace at most, as ""
    or " . .. ") gives no obligation, no risk, the summary "." and the
    readability sentinel, without raising. *)
Theorem text_without_sentence (text : str) :
  sentences_of text = [] ->
  extract_key_obligations text = []
  /\ identify_risks_and_warnings text = []
  /\ create_simple_summary text = Ok (py ".")
  /\ calculate_readability text
     = Ok [ ("score"%string, VStr (py "N/A"));
            ("level"%string, VStr (py "Unable to calculate")) ].
Proof.
  intros H.
  assert (Hl : long_sentences text = []).
  { pose proof (long_sentences_subseq text) as S. rewrite H in S.
    now inversion S. }
  assert (Hf : filter (fun s => nonempty (str_strip s))
                      (str_split (py ".") text) = []).
  { unfold sentences_of in H. now apply map_eq_nil in H. }
  split; [unfold extract_key_obligations; now rewrite H|].
  split; [unfold identify_risks_and_warnings; now rewrite H|].
  split.
  - rewrite create_simple_summary_eq. unfold summary_by_spec, summary_selection.
    now rewrite Hl.
  - unfold calculate_readability. now rewrite Hf.
Qed.

(** X14.  The sentences of the summary are sentences of the document, in
    document order and without repetition of a position: the selection is a
    subsequence of the list of sentences the other extractors use. *)
Theorem summary_in_document_order (text : str) :
  subseq (summary_selection text) (sentences_of text)
  /\ create_simple_summary text
     = Ok (str_join (py ". ") (summary_selection text) ++ py ".").
Proof.
  split; [|apply create_simple_summary_eq].
  eapply subseq_trans; [apply summary_selection_subseq|].
  apply long_sentences_subseq.
Qed.

(** X15.  A sentence that holds none of "The Client", "The Provider" and
    "shall" (as "You must pay", selected for its "must") is reported as it
    is. *)
Theorem simplify_leaves_other_sentences (sentence : str) :
  str_contains (py "The Client") sentence = false ->
  str_contains (py "The Provider") sentence = false ->
  str_contains (py "shall") sentence = false ->
  simplify sentence = sentence.
Proof.
  intros H1 H2 H3. unfold simplify.
  assert (E1 : str_replace (py "The Client") (py "You") sentence = sentence)
    by (apply (@replace_go_absent (py "The Client")); [discriminate|exact H1]).
  rewrite E1.
  assert (E2 : str_replace (py "The Provider") (py "The service provider")
                           sentence = sentence)
    by (apply (@replace_go_absent (py "The Provider")); [discriminate|exact H2]).
  rewrite E2.
  apply (@replace_go_absent (py "shall")); [discriminate|exact H3].
Qed.

(** X16.  The selection of sentences does not look at the case of ASCII
    letters: an ASCII sentence and the same sentence in capitals are selected
    alike, whatever the vocabulary. *)
Theorem mentions_ignores_ascii_case (vocabulary : list str) (sentence : str) :
  forallb is_ascii sentence = true ->
  mentions vocabulary (map ascii_upper sentence) = mentions vocabulary sentence.
Proof.
  intros H. unfold mentions.
  assert (E : str_lower (map ascii_upper sentence) = str_lower sentence).
  { unfold str_lower.
    assert (Hu : forallb is_ascii (map ascii_upper sentence) = true).
    { rewrite forallb_forall in *. intros c Hc.
      apply in_map_iff in Hc as (d & <- & Hd).
      rewrite is_ascii_upper. now apply H. }
    rewrite Hu, H, map_map. apply map_ext. intros c. apply ascii_lower_upper. }
  now rewrite E.
Qed.

(** X17.  Whatever the text, the structure analysis returns a sections list
    in which every entry is a line of the text, trimmed, that begins with one
    or more decimal digits followed by a period, and the entries keep the
    order of the lines; on the sample agreement as written, before cleaning,
    the sections are its six headings. *)
Theorem sections_of_structure_shape (text : str) :
  (exists structure sections,
     analyze_document_structure text = Ok structure
     /\ dict_get "sections" structure = Some (VStrs sections)
     /\ Forall (fun section =>
                  (exists line,
                     In line (str_split newline text)
                     /\ section = str_strip line)
                  /\ exists digits rest,
                       digits <> []
                       /\ forallb isdecimal digits = true
                       /\ section = digits ++ ch "." :: rest)
               sections
     /\ subseq sections (map str_strip (str_split newline text)))
  /\ exists structure,
       analyze_document_structure create_sample_legal_text = Ok structure
       /\ dict_get "sections" structure
          = Some (VStrs [ py "1. SERVICES"; py "2. PAYMENT TERMS";
                          py "3. CONFIDENTIALITY"; py "4. LIABILITY LIMITATION";
                          py "5. GOVERNING LAW"; py "6. TERMINATION" ]).
Proof.
  split.
  - destruct (analyze_document_structure_ok text) as (pg & avg & Hs).
    eexists; exists (numbered_lines text).
    split; [exact Hs|]. split; [reflexivity|]. split.
    + apply Forall_forall. intros section H. unfold numbered_lines in H.
      apply in_map_iff in H as (line & <- & Hin).
      apply filter_In in Hin as (Hin & Hm).
      split; [now exists line|].
      apply re_section_inv in Hm as (ws & ds & rest & E & Hws & Hds & Hd).
      exists ds, rest. split; [exact Hds|]. split; [exact Hd|].
      destruct ws as [|w ws]; [exact E|]. exfalso.
      pose proof (str_strip_start line) as Hs'.
      rewrite E in Hs'. cbn [app space_at_start] in Hs'.
      cbn [forallb] in Hws. apply andb_true_iff in Hws as (Hw & _). congruence.
    + unfold numbered_lines. apply subseq_map, subseq_filter.
  - destruct (analyze_document_structure_ok create_sample_legal_text)
      as (pg & avg & Hs).
    eexists. split; [exact Hs|].
    vm_compute. reflexivity.
Qed.

(** X18.  The first substitution of [clean_text], [re.sub(r'\s+', ' ', s)],
    puts one space for every run of whitespace: its result is the direct
    scan [collapse_spaces], has no two whitespace characters in a row, no
    whitespace but the space, and is never longer than [s]. *)
Theorem whitespace_runs_collapsed (s : str) :
  re_sub false re_spaces (py " ") s = collapse_spaces s
  /\ has_space_run (re_sub false re_spaces (py " ") s) = false
  /\ forallb (fun c => not_space c || (c =? 32)%N)
             (re_sub false re_spaces (py " ") s) = true
  /\ length (re_sub false re_spaces (py " ") s) <= length s.
Proof.
  rewrite re_sub_spaces_eq. unfold collapse_spaces.
  split; [reflexivity|]. split; [apply collapse_go_no_run|].
  split; [apply collapse_go_only_space|apply collapse_go_length].
Qed.

End Edges.

Lemma text_without_sentence_witness :
  sentences_of (py " . .. ") = []
  /\ extract_key_obligations (U := ascii_tables) (py " . .. ") = []
  /\ identify_risks_and_warnings (U := ascii_tables) (py " . .. ") = []
  /\ create_simple_summary (U := ascii_tables) (py " . .. ") = Ok (py ".")
  /\ calculate_readability (py " . .. ")
     = Ok [ ("score"%string, VStr (py "N/A"));
            ("level"%string, VStr (py "Unable to calculate")) ].
Proof.
  assert (H : sentences_of (py " . .. ") = []) by reflexivity.
  split; [exact H|].
  exact (@text_without_sentence ascii_tables (py " . .. ") H).
Defined.

Lemma simplify_leaves_other_sentences_witness :
  str_contains (py "The Client") (py "You must pay") = false
  /\ str_contains (py "The Provider") (py "You must pay") = false
  /\ str_contains (py "shall") (py "You must pay") = false
  /\ simplify (py "You must pay") = py "You must pay".
Proof.
  assert (H1 : str_contains (py "The Client") (py "You must pay") = false)
    by reflexivity.
  assert (H2 : str_contains (py "The Provider") (py "You must pay") = false)
    by reflexivity.
  assert (H3 : str_contains (py "shall") (py "You must pay") = false)
    by reflexivity.
  split; [exact H1|]. split; [exact H2|]. split; [exact H3|].
  exact (@simplify_leaves_other_sentences (py "You must pay") H1 H2 H3).
Defined.

Lemma mentions_ignores_ascii_case_witness :
  forallb is_ascii (py "The fee is due") = true
  /\ mentions (U := ascii_tables) risk_indicators
              (map ascii_upper (py "The fee is due"))
     = mentions (U := ascii_tables) risk_indicators (py "The fee is due").
Proof.
  assert (H : forallb is_ascii (py "The fee is due") = true) by reflexivity.
  split; [exact H|].
  exact (@mentions_ignores_ascii_case ascii_tables risk_indicators
           (py "The fee is due") H).
Defined.
